(** * Phishing e-mail detector: a shallow embedding of [phish_detector.py]

    The script is a straight-line program: it loads and validates
    [emails.csv], trains a TF-IDF + random-forest model, opens the SQLite
    store, and then runs a read-evaluate loop on standard input.  It is
    embedded here as a state-and-exception monad over a [World] that holds
    what the script can observe or change: the lines still to be read from
    standard input, the two tables of the store, the outcome of the writes
    still to come, and the trace of what the process did.

    The scikit-learn and pandas calls are not part of the repository; they
    are taken as parameters ([Sklearn], [TrainedModel]).  Probabilities and
    confidences are rationals: the doubles of the script and the rounding
    NumPy does on them are not modelled bit for bit, so the theorems below
    speak of a confidence as the value that is printed and stored, not of
    its digits.

    The script proper takes the terminal and the reads of the store as
    reliable: [input] raises at end of input only, the two COUNT queries
    and [commit] do not fail, and a text is in Latin-1.  What the driver
    does with a text that cannot be encoded and with a commit that fails
    is added for [save_to_db] in a section of its own ([pystr],
    [save_to_db_u]); the theorems on whole turns and whole runs that are
    stated as safety properties (which rows can be written, when the
    store is opened and closed) do not depend on those choices. *)

From Stdlib Require Import Bool Arith List Lia ZArith QArith Qround.
From Stdlib Require Import Ascii String.
Import ListNotations.

Local Close Scope Q_scope.
Local Open Scope string_scope.

(** ** Python [str] operations

    A character is a code point below 256 (Latin-1), which is what Rocq's
    [ascii] holds; [isspace] and [lower] are Python's on that range. *)

Module Str.

Definition code (c : ascii) : N := N_of_ascii c.

(** [str.isspace] on one character: TAB..CR, FS..US, SPACE, NEL, NBSP. *)
Definition isspace (c : ascii) : bool :=
  let n := code c in
  ((9 <=? n) && (n <=? 13) || (28 <=? n) && (n <=? 32)
   || (n =? 133) || (n =? 160))%N.

Fixpoint lstrip (s : string) : string :=
  match s with
  | EmptyString => EmptyString
  | String c r => if isspace c then lstrip r else s
  end.

Fixpoint rstrip (s : string) : string :=
  match s with
  | EmptyString => EmptyString
  | String c r =>
      match rstrip r with
      | EmptyString => if isspace c then EmptyString else String c EmptyString
      | r' => String c r'
      end
  end.

(** [s.strip()] *)
Definition strip (s : string) : string := rstrip (lstrip s).

Definition lower_char (c : ascii) : ascii :=
  let n := code c in
  if ((65 <=? n) && (n <=? 90)
      || (192 <=? n) && (n <=? 222) && negb (n =? 215))%N
  then ascii_of_N (n + 32) else c.

(** [s.lower()] *)
Fixpoint lower (s : string) : string :=
  match s with
  | EmptyString => EmptyString
  | String c r => String (lower_char c) (lower r)
  end.

(** [len(s)] *)
Definition len (s : string) : nat := String.length s.

(** [not s] for a string: true exactly on the empty string. *)
Definition is_empty (s : string) : bool :=
  match s with EmptyString => true | _ => false end.

(** [s in l] for a list of strings. *)
Definition mem (s : string) (l : list string) : bool :=
  existsb (String.eqb s) l.

(** [c * n] for a one-character string. *)
Fixpoint replicate (n : nat) (c : ascii) : string :=
  match n with
  | O => EmptyString
  | S k => String c (replicate k c)
  end.

End Str.

Arguments Str.mem : simpl never.
Arguments Str.strip : simpl never.
Arguments Str.lower : simpl never.

(** ** Numbers *)

Module Num.

Local Open Scope Q_scope.

(** Round to the nearest integer, ties to the even one. *)
Definition round_half_even (x : Q) : Z :=
  let f := Qfloor x in
  match Qcompare (x - inject_Z f) (1 # 2) with
  | Lt => f
  | Gt => (f + 1)%Z
  | Eq => if Z.even f then f else (f + 1)%Z
  end.

(** [round(x, 2)], as exact rounding to hundredths on rationals, ties to
    the even hundredth.  The script rounds a double; on a tie of the
    decimal notation the two can differ in the last digit. *)
Definition round2 (x : Q) : Q := round_half_even (x * 100) # 100.

(** [a.max()] on a one-dimensional array; [None] on the empty array, where
    NumPy raises [ValueError]. *)
Fixpoint max (a : list Q) : option Q :=
  match a with
  | [] => None
  | x :: r =>
      match max r with
      | None => Some x
      | Some m => Some (if Qle_bool x m then m else x)
      end
  end.

Fixpoint sum (a : list Q) : Q :=
  match a with
  | [] => 0
  | x :: r => x + sum r
  end.

End Num.

(** ** Exceptions, outputs and the trace *)

(** The exceptions of the script.  [sqlite3_Error] stands for
    [sqlite3.Error] and its subclasses, [OtherError] for any other
    subclass of [Exception], such as the [FileNotFoundError] of
    [pd.read_csv]. *)
Inductive exn : Type :=
| ValueError (msg : string)
| KeyError (key : string)
| EOFError
| sqlite3_Error
| OtherError (msg : string)
| SystemExit.

(** [except Exception] catches everything but [SystemExit]. *)
Definition is_Exception (e : exn) : bool :=
  match e with SystemExit => false | _ => true end.

(** [except sqlite3.Error] *)
Definition is_sqlite3_Error (e : exn) : bool :=
  match e with sqlite3_Error => true | _ => false end.

(** A value of a DataFrame column. *)
Inductive cell : Type :=
| CStr (s : string)
| CNum (z : Z)
| CNaN.

(** One constructor per [print] of the script, with the values it
    formats.  [Result] prints the label in upper case. *)
Inductive output : Type :=
| Banner
| DataLoaded
| SmallDataWarning
| TotalEmails (total phishing legitimate : nat)
| ErrorLoading (e : exn)
| ModelEvaluation
| ClassificationReport (y_test : list cell) (y_pred : list string)
| EvaluationSkipped
| InteractiveMode
| Usage
| DatabaseSummary
| TotalDetections (n : nat)
| FalsePositives (n : nat)
| ErrEmptyInput
| ErrTooShort
| Result (prediction : string) (confidence : Q)
| SkippingSave
| DatabaseError (e : exn)
| FeedbackSaved
| InvalidLabel
| Error (e : exn)
| SessionEnded
| AllSaved.

Inductive prompt : Type :=
| EnterEmailText
| WasThisCorrect
| WhatShouldItBe.

(** What the process did, in order.  [Analyze email] marks the call of
    [analyze_email] at the call site. *)
Inductive event : Type :=
| Print (o : output)
| Prompt (p : prompt)
| TrainTestSplit
| FitVectorizer
| FitModel
| Connect
| Close
| Analyze (email : string)
| Exit.

(** ** The store and the world *)

(** A row of [detections] and of [false_positives]; the [id] and the
    [timestamp] are filled in by the engine and left out. *)
Record Detection : Type := mkDetection {
  email_text : string;
  prediction : string;
  confidence : Q
}.

Record FalsePositive : Type := mkFalsePositive {
  fp_email_text : string;
  actual_label : string
}.

Record World : Type := mkWorld {
  stdin : list string;            (* lines not yet read; [] is end of input *)
  write_faults : list bool;       (* INSERTs to come: [true] raises sqlite3.Error *)
  detections : list Detection;    (* table detections, oldest row first *)
  false_positives : list FalsePositive;
  trace : list event              (* oldest event first *)
}.

(** ** The monad of the script *)

Inductive result (A : Type) : Type :=
| Ret (a : A)
| Raise (e : exn)
| OutOfFuel.

Arguments Ret {A} a.
Arguments Raise {A} e.
Arguments OutOfFuel {A}.

Definition M (A : Type) : Type := World -> result A * World.

Definition ret {A} (a : A) : M A := fun w => (Ret a, w).

Definition raise {A} (e : exn) : M A := fun w => (Raise e, w).

Definition bind {A B} (m : M A) (k : A -> M B) : M B :=
  fun w =>
    match m w with
    | (Ret a, w') => k a w'
    | (Raise e, w') => (Raise e, w')
    | (OutOfFuel, w') => (OutOfFuel, w')
    end.

(** [try: body  except <catches> as e: handler e] *)
Definition try_except {A} (catches : exn -> bool) (body : M A)
    (handler : exn -> M A) : M A :=
  fun w =>
    match body w with
    | (Raise e, w') => if catches e then handler e w' else (Raise e, w')
    | r => r
    end.

Declare Scope py_scope.
Delimit Scope py_scope with py.
Notation "x <- c ;; k" := (bind c (fun x => k))
  (at level 100, c at next level, right associativity) : py_scope.
Notation "' p <- c ;; k" := (bind c (fun x => let 'p := x in k))
  (at level 100, p pattern, c at next level, right associativity) : py_scope.
Notation "c ;; k" := (bind c (fun _ => k))
  (at level 100, right associativity) : py_scope.
Local Open Scope py_scope.

Definition log (e : event) : M unit :=
  fun w => (Ret tt, mkWorld (stdin w) (write_faults w) (detections w)
                            (false_positives w) (trace w ++ [e])).

Definition print (o : output) : M unit := log (Print o).

(** [input(p)]: writes the prompt, then returns the next line or raises
    [EOFError] at end of input.  The terminal is taken to deliver lines
    that decode. *)
Definition input (p : prompt) : M string :=
  log (Prompt p) ;;
  fun w =>
    match stdin w with
    | [] => (Raise EOFError, w)
    | line :: rest =>
        (Ret line, mkWorld rest (write_faults w) (detections w)
                           (false_positives w) (trace w))
    end.

(** [exit()] *)
Definition exit {A} : M A := log Exit ;; raise SystemExit.

(** The outcome of the next write: the head of [write_faults], no fault
    once the list is used up. *)
Definition next_fault : M bool :=
  fun w =>
    match write_faults w with
    | [] => (Ret false, w)
    | b :: rest =>
        (Ret b, mkWorld (stdin w) rest (detections w) (false_positives w)
                        (trace w))
    end.

(** [cursor.execute("INSERT INTO detections ...", (email, prediction, confidence))],
    for a text the driver can bind; [execute_insert_detection_u] below
    takes any text. *)
Definition execute_insert_detection (d : Detection) : M unit :=
  fault <- next_fault ;;
  if fault : bool then raise sqlite3_Error
  else fun w => (Ret tt, mkWorld (stdin w) (write_faults w)
                                 (detections w ++ [d]) (false_positives w)
                                 (trace w)).

(** [cursor.execute("INSERT INTO false_positives ...", (email, actual_label))] *)
Definition execute_insert_false_positive (f : FalsePositive) : M unit :=
  fault <- next_fault ;;
  if fault : bool then raise sqlite3_Error
  else fun w => (Ret tt, mkWorld (stdin w) (write_faults w) (detections w)
                                 (false_positives w ++ [f]) (trace w)).

(** [conn.commit()]: a write is atomic and its failure is decided at the
    INSERT, so the commit has nothing left to do.  A commit that fails
    after its INSERT is [commit_u] below. *)
Definition commit : M unit := ret tt.

(** [cursor.execute('SELECT COUNT( * ) FROM detections').fetchone()[0]];
    the read is taken not to fail. *)
Definition count_detections : M nat :=
  fun w => (Ret (List.length (detections w)), w).

(** [cursor.execute('SELECT COUNT( * ) FROM false_positives').fetchone()[0]];
    the read is taken not to fail. *)
Definition count_false_positives : M nat :=
  fun w => (Ret (List.length (false_positives w)), w).

(** ** pandas and scikit-learn, as far as the script uses them *)

(** A DataFrame: its named columns, in order. *)
Definition DataFrame : Type := list (string * list cell).

Definition columns (data : DataFrame) : list string := map fst data.

(** [len(data)]: the number of rows. *)
Definition nrows (data : DataFrame) : nat :=
  match data with
  | [] => 0
  | (_, col) :: _ => List.length col
  end.

(** The first column called [name], if any. *)
Fixpoint column (data : DataFrame) (name : string) : option (list cell) :=
  match data with
  | [] => None
  | (c, col) :: rest => if String.eqb c name then Some col else column rest name
  end.

(** [data[name]] *)
Definition getitem (data : DataFrame) (name : string) : M (list cell) :=
  match column data name with
  | None => raise (KeyError name)
  | Some col => ret col
  end.

Definition cell_eqb (a b : cell) : bool :=
  match a, b with
  | CStr s, CStr t => String.eqb s t
  | CNum x, CNum y => Z.eqb x y
  | CNaN, CNaN => true
  | _, _ => false
  end.

(** [series.unique()]: the values in order of first appearance. *)
Fixpoint unique (col : list cell) : list cell :=
  match col with
  | [] => []
  | x :: r => x :: filter (fun y => negb (cell_eqb x y)) (unique r)
  end.

(** [value in l] for a cell and a list of strings. *)
Definition cell_in (value : cell) (l : list string) : bool :=
  match value with
  | CStr s => Str.mem s l
  | _ => false
  end.

(** [sum(series == s)] *)
Definition count_eq (col : list cell) (s : string) : nat :=
  List.length (filter (fun v => cell_eqb v (CStr s)) col).

Definition FeatureVector : Type := list Q.

Record Vectorizer : Type := mkVectorizer {
  transform : cell -> FeatureVector
}.

Record Classifier : Type := mkClassifier {
  predict : FeatureVector -> string;
  predict_proba : FeatureVector -> list Q
}.

(** The fitted pair the prediction service reads: the globals
    [vectorizer] and [model]. *)
Record TrainedModel : Type := mkTrainedModel {
  vectorizer : Vectorizer;
  model : Classifier
}.

Definition Split : Type :=
  (list cell * list cell * list cell * list cell)%type.

(** The three calls that can fail or that compute something the script
    does not: [train_test_split(X, y, test_size=0.2, random_state=42,
    stratify=y)], [vectorizer.fit_transform(X_train)] and
    [model.fit(X_train_vec, y_train)]. *)
Record Sklearn : Type := mkSklearn {
  train_test_split : list cell -> list cell -> exn + Split;
  fit_vectorizer : list cell -> exn + Vectorizer;
  fit_model : list FeatureVector -> list cell -> exn + Classifier
}.

(** A library call that is logged and may raise. *)
Definition call {A} (ev : event) (r : exn + A) : M A :=
  log ev ;;
  match r with
  | inl e => raise e
  | inr a => ret a
  end.

(** ** The script *)

Definition labels : list string := ["phishing"; "legitimate"].

(** Lines 12-30: load [emails.csv] and validate it.  [csv] is what
    [pd.read_csv("emails.csv")] yields. *)
Definition load_data (csv : exn + DataFrame) : M DataFrame :=
  print Banner ;;
  try_except is_Exception
    (data <- match csv with inl e => raise e | inr d => ret d end ;;
     print DataLoaded ;;
     (if negb (forallb (fun col => Str.mem col (columns data)) ["text"; "label"])
      then raise (ValueError "CSV must contain 'text' and 'label' columns")
      else ret tt) ;;
     label <- getitem data "label" ;;
     (if negb (forallb (fun l => cell_in l labels) (unique label))
      then raise (ValueError "Labels must be 'phishing' or 'legitimate'")
      else ret tt) ;;
     (if (nrows data <? 10)%nat then print SmallDataWarning else ret tt) ;;
     print (TotalEmails (nrows data) (count_eq label "phishing")
                        (count_eq label "legitimate")) ;;
     ret data)
    (fun e => print (ErrorLoading e) ;; exit).

(** Lines 35-59: split, vectorize, fit. *)
Definition train (sk : Sklearn) (data : DataFrame)
    : M (TrainedModel * list cell * list FeatureVector * list cell) :=
  X <- getitem data "text" ;;
  y <- getitem data "label" ;;
  '(X_train, X_test, y_train, y_test) <-
      call TrainTestSplit (train_test_split sk X y) ;;
  vec <- call FitVectorizer (fit_vectorizer sk X_train) ;;
  let X_train_vec := map (transform vec) X_train in
  let X_test_vec := map (transform vec) X_test in
  clf <- call FitModel (fit_model sk X_train_vec y_train) ;;
  ret (mkTrainedModel vec clf, X_test, X_test_vec, y_test).

(** Lines 64-79: open the store and make sure both tables exist.  A table
    that does not exist yet is an empty list of rows. *)
Definition connect : M unit := log Connect ;; commit.

(** Lines 84-94. *)
Definition analyze_email (tm : TrainedModel) (email : string)
    : M (string * Q) :=
  if Str.is_empty (Str.strip email) then raise (ValueError "Empty email text")
  else if (1000 <? Str.len email)%nat
  then raise (ValueError "Email too long (max 1000 chars)")
  else
    let vec := transform (vectorizer tm) (CStr email) in
    let prediction := predict (model tm) vec in
    match Num.max (predict_proba (model tm) vec) with
    | None => raise (ValueError "zero-size array to reduction operation maximum which has no identity")
    | Some proba => ret (prediction, Num.round2 (proba * 100)%Q)
    end.

(** Lines 96-106. *)
Definition save_to_db (email prediction : string) (confidence : Q) : M unit :=
  if Str.is_empty email || Str.is_empty prediction
  then print SkippingSave
  else
    try_except is_sqlite3_Error
      (execute_insert_detection (mkDetection email prediction confidence) ;;
       commit)
      (fun e => print (DatabaseError e)).

(** Lines 111-116. *)
Definition evaluate (tm : TrainedModel) (X_test : list cell)
    (X_test_vec : list FeatureVector) (y_test : list cell) : M unit :=
  print ModelEvaluation ;;
  if (0 <? List.length X_test)%nat
  then print (ClassificationReport y_test (map (predict (model tm)) X_test_vec))
  else print EvaluationSkipped.

Inductive control : Type := Break | Continue.

(** Lines 150-159: ask whether the prediction was right and record the
    correction. *)
Definition ask_feedback (email : string) : M unit :=
  answer <- input WasThisCorrect ;;
  let feedback := Str.lower answer in
  if String.eqb feedback "n" then
    answer' <- input WhatShouldItBe ;;
    let actual_label := Str.lower (Str.strip answer') in
    if Str.mem actual_label labels then
      execute_insert_false_positive (mkFalsePositive email actual_label) ;;
      commit ;;
      print FeedbackSaved
    else print InvalidLabel
  else ret tt.

(** Lines 144-162: the [try] block and its handler. *)
Definition predict_and_record (tm : TrainedModel) (email : string) : M unit :=
  try_except is_Exception
    (log (Analyze email) ;;
     '(prediction, confidence) <- analyze_email tm email ;;
     print (Result prediction confidence) ;;
     save_to_db email prediction confidence ;;
     ask_feedback email)
    (fun e => print (Error e)).

(** Lines 127-162: what a turn does with the line it has read. *)
Definition dispatch (tm : TrainedModel) (line : string) : M control :=
  let email := Str.strip line in
  if String.eqb (Str.lower email) "quit" then ret Break
  else if String.eqb (Str.lower email) "report" then
    print DatabaseSummary ;;
    n <- count_detections ;;
    print (TotalDetections n) ;;
    m <- count_false_positives ;;
    print (FalsePositives m) ;;
    ret Continue
  else if Str.is_empty email then print ErrEmptyInput ;; ret Continue
  else if (Str.len email <? 10)%nat then print ErrTooShort ;; ret Continue
  else predict_and_record tm email ;; ret Continue.

(** Lines 125-162: one turn of the [while True] loop. *)
Definition loop_body (tm : TrainedModel) : M control :=
  line <- input EnterEmailText ;;
  dispatch tm line.

(** Lines 124-162: the loop.  A turn reads at least one line or raises,
    so [fuel] above the number of lines left is never used up. *)
Fixpoint loop (tm : TrainedModel) (fuel : nat) : M unit :=
  match fuel with
  | O => fun w => (OutOfFuel, w)
  | S k =>
      c <- loop_body tm ;;
      match c with
      | Break => ret tt
      | Continue => loop tm k
      end
  end.

Definition interactive (tm : TrainedModel) : M unit :=
  print InteractiveMode ;;
  print Usage ;;
  fun w => loop tm (S (List.length (stdin w))) w.

(** Lines 167-169. *)
Definition cleanup : M unit :=
  log Close ;;
  print SessionEnded ;;
  print AllSaved.

(** The whole script. *)
Definition main (sk : Sklearn) (csv : exn + DataFrame) : M unit :=
  data <- load_data csv ;;
  '(tm, X_test, X_test_vec, y_test) <- train sk data ;;
  connect ;;
  evaluate tm X_test X_test_vec y_test ;;
  interactive tm ;;
  cleanup.

(** ** Properties of runs *)

(** A text the prediction service accepts. *)
Definition valid_text (email : string) : Prop :=
  Str.strip email <> EmptyString /\ Str.len email <= 1000.

(** A probability distribution over the classes. *)
Definition is_distribution (p : list Q) : Prop :=
  Forall (fun x => 0 <= x)%Q p /\ (Num.sum p == 1)%Q.

(** The dataset lacks one of the two required columns. *)
Definition missing_column (data : DataFrame) : Prop :=
  ~ In "text" (columns data) \/ ~ In "label" (columns data).

(** The label column holds a value that is not one of the two labels. *)
Definition unrecognized_label (data : DataFrame) : Prop :=
  exists col v, column data "label" = Some col /\ In v col /\
                cell_in v labels = false.

(** Events of the training pipeline. *)
Definition training_event (e : event) : Prop :=
  e = TrainTestSplit \/ e = FitVectorizer \/ e = FitModel.

(** Events that are neither the opening nor the closing of the store. *)
Definition not_connection (e : event) : Prop :=
  e <> Connect /\ e <> Close.

(** Events a turn of the loop can log. *)
Definition session_event (e : event) : Prop :=
  match e with
  | Print _ | Prompt _ => True
  | Analyze email => Str.strip email = email /\ 10 <= Str.len email
  | _ => False
  end.

(** A detection whose text is stripped and of 10 to 1000 characters and
    whose label satisfies [L]. *)
Definition stored_with (L : string -> Prop) (d : Detection) : Prop :=
  Str.strip (email_text d) = email_text d /\
  10 <= Str.len (email_text d) <= 1000 /\
  L (prediction d).

(** What holds of every detection the session writes. *)
Definition stored_detection : Detection -> Prop :=
  stored_with (fun label => In label labels).

(** What holds of every feedback row the session writes. *)
Definition stored_feedback (f : FalsePositive) : Prop :=
  In (actual_label f) labels.

(** [w'] is [w] after some steps of the session: both tables and the trace
    have only grown, by rows and events of the given kinds, and what is
    left of standard input is a suffix of what there was. *)
Record extends (P : event -> Prop) (G : Detection -> Prop)
    (F : FalsePositive -> Prop) (w w' : World) : Prop := mkExtends {
  ext_trace : exists evs, trace w' = (trace w ++ evs)%list /\ Forall P evs;
  ext_detections :
    exists ds, detections w' = (detections w ++ ds)%list /\ Forall G ds;
  ext_false_positives :
    exists fs, false_positives w' = (false_positives w ++ fs)%list /\ Forall F fs;
  ext_stdin : exists used, stdin w = (used ++ stdin w')%list
}.

(** Every run of [m] relates the world before to the world after. *)
Definition preserves {A} (R : World -> World -> Prop) (m : M A) : Prop :=
  forall w, R w (snd (m w)).

(** Every value [m] returns satisfies [Q]. *)
Definition returns {A} (m : M A) (Q : A -> Prop) : Prop :=
  forall w a w', m w = (Ret a, w') -> Q a.

(** [m] never raises and never runs out of fuel. *)
Definition total {A} (m : M A) : Prop :=
  forall w, exists a w', m w = (Ret a, w').

Definition event_eq_dec : forall a b : event, {a = b} + {a <> b}.
Proof.
  assert (Hq : forall a b : Q, {a = b} + {a <> b}).
  { decide equality; [apply Pos.eq_dec | apply Z.eq_dec]. }
  assert (He : forall a b : exn, {a = b} + {a <> b}).
  { decide equality; apply string_dec. }
  assert (Hc : forall a b : cell, {a = b} + {a <> b}).
  { decide equality; [apply string_dec | apply Z.eq_dec]. }
  decide equality; try apply string_dec.
  - decide equality; try apply Nat.eq_dec; try apply string_dec;
      try apply (list_eq_dec Hc); try apply (list_eq_dec string_dec).
  - decide equality.
Defined.

(** How often the store was opened and closed in a trace. *)
Definition acquired (evs : list event) : nat := count_occ event_eq_dec evs Connect.
Definition released (evs : list event) : nat := count_occ event_eq_dec evs Close.

(** The turn of the loop that starts in [w] reads [line] next. *)
Definition next_line (w : World) (line : string) : Prop :=
  exists rest, stdin w = line :: rest.

(** [w] with the next line read and the events [evs] logged. *)
Definition after_line (w : World) (evs : list event) : World :=
  mkWorld (tl (stdin w)) (write_faults w) (detections w) (false_positives w)
          (trace w ++ evs)%list.


(** The store accepts the next write. *)
Definition write_accepted (w : World) : Prop :=
  hd false (write_faults w) = false.

(** [m] raises nothing but exceptions in [E], and does not run out of
    fuel. *)
Definition raises_only {A} (E : exn -> Prop) (m : M A) : Prop :=
  forall w,
    match fst (m w) with
    | Ret _ => True
    | Raise e => E e
    | OutOfFuel => False
    end.

(** The dataset passed validation: it has a label column, and that
    column holds the two labels only. *)
Definition validated (data : DataFrame) : Prop :=
  exists label, column data "label" = Some label /\
                forall v, In v label -> cell_in v labels = true.

(** What the script takes for granted of scikit-learn: the training
    labels are drawn from the labels given, and a fitted classifier
    predicts one of the labels it was trained on. *)
Definition split_sound (sk : Sklearn) : Prop :=
  forall X y X_train X_test y_train y_test,
    train_test_split sk X y = inr (X_train, X_test, y_train, y_test) ->
    incl y_train y.

Definition fit_sound (sk : Sklearn) : Prop :=
  forall X_train_vec y_train clf,
    fit_model sk X_train_vec y_train = inr clf ->
    forall v, In (CStr (predict clf v)) y_train.

(** The two columns the script asks for are there. *)
Definition has_columns (data : DataFrame) : bool :=
  forallb (fun col => Str.mem col (columns data)) ["text"; "label"].

(** Any exception at all. *)
Definition any_exn : exn -> Prop := fun _ => True.

(** [w] with the events [evs] logged. *)
Definition logged (w : World) (evs : list event) : World :=
  mkWorld (stdin w) (write_faults w) (detections w) (false_positives w)
          (trace w ++ evs)%list.

(** ** A small instance, for running the script *)

Module Toy.

Definition vec : Vectorizer := mkVectorizer (fun _ => [0%Q]).

(** A classifier that always answers [label], with seven votes in ten. *)
Definition clf (label : string) : Classifier :=
  mkClassifier (fun _ => label) (fun _ => [3 # 10; 7 # 10]%Q).

Definition tm : TrainedModel := mkTrainedModel vec (clf "phishing").

Definition sk : Sklearn :=
  mkSklearn
    (fun X y => inr (X, [], y, []))
    (fun _ => inr vec)
    (fun _ y_train =>
       match y_train with
       | CStr label :: _ => inr (clf label)
       | _ => inl (ValueError "no labels")
       end).

Definition emails : DataFrame :=
  [("text", [CStr "Verify your account now"; CStr "Lunch at noon?"]);
   ("label", [CStr "phishing"; CStr "legitimate"])].

Definition no_label : DataFrame :=
  [("text", [CStr "Verify your account now"; CStr "Lunch at noon?"])].

(** A fresh store, the given lines on standard input, writes failing as
    scheduled. *)
Definition world (lines : list string) (faults : list bool) : World :=
  mkWorld lines faults [] [] [].

(** One message and its confirmation, then the end of input. *)
Definition one_prediction : World :=
  world ["Your account is suspended"; "y"] [].

End Toy.

(** ** Further properties of runs *)

(** A dataset the script accepts: both columns are there and the label
    column holds the two labels only. *)
Definition acceptable (data : DataFrame) : Prop :=
  has_columns data = true /\ validated data.

(** Only the trace differs between [w] and [w']: no line was read, no
    write was tried, no row was added. *)
Definition quiet (w w' : World) : Prop :=
  stdin w' = stdin w /\ write_faults w' = write_faults w /\
  detections w' = detections w /\ false_positives w' = false_positives w.

(** [analyze_email] accepts [email] and answers [(label, conf)]. *)
Definition analyzes_to (tm : TrainedModel) (email label : string) (conf : Q)
    : Prop :=
  forall w, analyze_email tm email w = (Ret (label, conf), w).

(** What a turn may add to the tables for the text [email]: at most one
    detection, whose label and confidence were printed, and at most one
    feedback row, with a recognized label and only for a text that was
    analysed. *)
Definition turn_rows (email : string) (evs : list event)
    (ds : list Detection) (fs : list FalsePositive) : Prop :=
  (ds = [] \/
   exists label conf, ds = [mkDetection email label conf] /\
                      In (Analyze email) evs /\
                      In (Print (Result label conf)) evs) /\
  (fs = [] \/
   exists label, fs = [mkFalsePositive email label] /\ In label labels /\
                 In (Analyze email) evs).

(** The events of a successful load. *)
Definition load_events (data : DataFrame) (label : list cell) : list event :=
  [Print Banner; Print DataLoaded] ++
  (if (nrows data <? 10)%nat then [Print SmallDataWarning] else []) ++
  [Print (TotalEmails (nrows data) (count_eq label "phishing")
                      (count_eq label "legitimate"))].

(** The world in which the feedback question is asked, in a turn that
    read [line :: rest], analysed it to [(label, conf)] and stored it. *)
Definition recorded (w : World) (rest : list string) (email label : string)
    (conf : Q) : World :=
  mkWorld rest (tl (write_faults w))
          (detections w ++ [mkDetection email label conf])
          (false_positives w)
          (trace w ++ [Prompt EnterEmailText; Analyze email;
                       Print (Result label conf)]).


(** Every row of [ds] and [fs] is accounted for in the events [evs]: a
    detection was analysed and printed with its label and confidence, a
    feedback row is for a text that was analysed and has one of the two
    labels. *)
Definition rows_logged (evs : list event) (ds : list Detection)
    (fs : list FalsePositive) : Prop :=
  Forall (fun d => In (Analyze (email_text d)) evs /\
                   In (Print (Result (prediction d) (confidence d))) evs) ds /\
  Forall (fun f => In (Analyze (fp_email_text f)) evs /\
                   In (actual_label f) labels) fs.

(** From [w] to [w'] the tables and the trace have grown, and the new
    rows are accounted for in the new events. *)
Definition session_rows (w w' : World) : Prop :=
  exists evs ds fs,
    trace w' = (trace w ++ evs)%list /\
    detections w' = (detections w ++ ds)%list /\
    false_positives w' = (false_positives w ++ fs)%list /\
    rows_logged evs ds fs.


(** ** The text as Python holds it, and the store as the driver has it

    The script above takes its texts in Latin-1.  Under the POSIX locale
    [input()] stands for a byte it cannot decode by a lone surrogate,
    U+DC80 to U+DCFF, and such a text cannot be encoded as UTF-8 when
    the driver binds it to the INSERT.  [pystr] adds these characters;
    [save_to_db_u] is [save_to_db] on such texts, with a [conn.commit()]
    that can fail as well. *)

Inductive pychar : Type :=
| Latin1 (c : ascii)          (* the code point of [c] *)
| LoneSurrogate (b : ascii).  (* U+DC00 + the byte [b], [b] >= 0x80 *)

Definition pystr : Type := list pychar.

(** [s.encode('utf-8')], as far as it matters here: the text itself when
    it holds no lone surrogate, [None] where Python raises
    [UnicodeEncodeError]. *)
Fixpoint encode (s : pystr) : option string :=
  match s with
  | [] => Some EmptyString
  | Latin1 c :: r =>
      match encode r with
      | Some t => Some (String c t)
      | None => None
      end
  | LoneSurrogate _ :: _ => None
  end.

(** A Latin-1 text as a [pystr]. *)
Fixpoint of_string (s : string) : pystr :=
  match s with
  | EmptyString => []
  | String c r => Latin1 c :: of_string r
  end.

(** [UnicodeEncodeError], a [ValueError] that is no [sqlite3.Error]. *)
Definition UnicodeEncodeError : exn :=
  OtherError "'utf-8' codec can't encode character: surrogates not allowed".

(** [cursor.execute("INSERT INTO detections ...", (email, prediction,
    confidence))] on a [pystr]: the parameters are bound first, which
    raises [UnicodeEncodeError] on a text that cannot be encoded; then
    the statement runs, and fails or not as [write_faults] says. *)
Definition execute_insert_detection_u (email : pystr) (prediction : string)
    (confidence : Q) : M unit :=
  match encode email with
  | None => raise UnicodeEncodeError
  | Some text => execute_insert_detection (mkDetection text prediction confidence)
  end.

(** [conn.commit()] that can fail: it takes the next entry of
    [write_faults] and raises [sqlite3.Error] when that is [true].  The
    rows of the open transaction stay in the table as the connection
    sees it. *)
Definition commit_u : M unit :=
  fault <- next_fault ;;
  if fault : bool then raise sqlite3_Error else ret tt.

(** [not s] for a [pystr]. *)
Definition is_nil (s : pystr) : bool :=
  match s with [] => true | _ => false end.

(** Lines 96-106, on a [pystr] and with a commit that can fail. *)
Definition save_to_db_u (email : pystr) (prediction : string) (confidence : Q)
    : M unit :=
  if is_nil email || Str.is_empty prediction
  then print SkippingSave
  else
    try_except is_sqlite3_Error
      (execute_insert_detection_u email prediction confidence ;;
       commit_u)
      (fun e => print (DatabaseError e)).

(** The first and the second entry of the schedule of faults. *)
Definition first_fault (w : World) : bool := hd false (write_faults w).
Definition second_fault (w : World) : bool := hd false (tl (write_faults w)).

(** A dataset that scikit-learn can split and fit: five messages of each
    class. *)
Module Sample.

Definition emails : DataFrame :=
  [("text",
    [CStr "Your account will be suspended, click here now to verify";
     CStr "Urgent: confirm your password to avoid account closure";
     CStr "You have won a prize, send your bank details today";
     CStr "Security alert: unusual login, verify your identity";
     CStr "Final notice: update your payment information immediately";
     CStr "Lunch at noon on Thursday?";
     CStr "Minutes of the project meeting attached";
     CStr "Can you review my pull request this afternoon";
     CStr "Happy birthday, see you at the party on Saturday";
     CStr "The quarterly report is ready for your comments"]);
   ("label",
    [CStr "phishing"; CStr "phishing"; CStr "phishing"; CStr "phishing";
     CStr "phishing"; CStr "legitimate"; CStr "legitimate";
     CStr "legitimate"; CStr "legitimate"; CStr "legitimate"])].

(** Every fifth row, from the first: for [emails], one message of each
    class, a fifth of the rows. *)
Fixpoint held_out {A} (i : nat) (l : list A) : list A * list A :=
  match l with
  | [] => ([], [])
  | x :: r =>
      let (train, test) := held_out (S i) r in
      if (i mod 5 =? 0)%nat then (train, x :: test) else (x :: train, test)
  end.

(** A stand-in for scikit-learn: a stratified split of four fifths to
    one fifth, and a classifier that answers with the first label it was
    trained on. *)
Definition sk : Sklearn :=
  mkSklearn
    (fun X y =>
       let (X_train, X_test) := held_out 0 X in
       let (y_train, y_test) := held_out 0 y in
       inr (X_train, X_test, y_train, y_test))
    (fun _ => inr Toy.vec)
    (fun _ y_train =>
       match y_train with
       | CStr label :: _ => inr (Toy.clf label)
       | _ => inl (ValueError "no labels")
       end).

(** A fresh store and an input that is empty from the start, as when the
    script is run with its input redirected from an empty file. *)
Definition no_input : World := mkWorld [] [] [] [] [].

End Sample.


(** More instances, for running the script. *)
Module Cases.

(** A [train_test_split] that refuses the dataset, as the stratified
    split does for a class with a single member. *)
Definition failing_split : Sklearn :=
  mkSklearn
    (fun _ _ => inl (ValueError "The least populated class in y has only 1 member"))
    (fun _ => inr Toy.vec)
    (fun _ _ => inr (Toy.clf "phishing")).

(** The message of the examples, as typed and as stored. *)
Definition typed : string := "  Your account is suspended  ".
Definition message : string := "Your account is suspended".

End Cases.

(** * Runs of the script *)

(** A whole session: a message is classified and stored, the user
    disputes the label, asks for the report, types two lines that are
    too short, and quits. *)
Example run_with_feedback :
  main Toy.sk (inr Toy.emails)
       (Toy.world ["  Your account is suspended  "; "N"; " Legitimate ";
                   "report"; "short"; EmptyString; "QUIT "] []) =
  (Ret tt,
   mkWorld [] []
     [mkDetection "Your account is suspended" "phishing" (7000 # 100)%Q]
     [mkFalsePositive "Your account is suspended" "legitimate"]
     [Print Banner; Print DataLoaded; Print SmallDataWarning;
      Print (TotalEmails 2 1 1); TrainTestSplit; FitVectorizer; FitModel;
      Connect; Print ModelEvaluation; Print EvaluationSkipped;
      Print InteractiveMode; Print Usage;
      Prompt EnterEmailText; Analyze "Your account is suspended";
      Print (Result "phishing" (7000 # 100)%Q);
      Prompt WasThisCorrect; Prompt WhatShouldItBe; Print FeedbackSaved;
      Prompt EnterEmailText; Print DatabaseSummary;
      Print (TotalDetections 1); Print (FalsePositives 1);
      Prompt EnterEmailText; Print ErrTooShort;
      Prompt EnterEmailText; Print ErrEmptyInput;
      Prompt EnterEmailText;
      Close; Print SessionEnded; Print AllSaved]).
Proof. vm_compute. reflexivity. Qed.

(** The write of the detection fails: the warning is printed, the
    feedback prompt follows, and the row is missing from the report. *)
Example run_with_failing_write :
  main Toy.sk (inr Toy.emails)
       (Toy.world ["Your account is suspended"; "y"; "report"; "quit"] [true]) =
  (Ret tt,
   mkWorld [] [] [] []
     [Print Banner; Print DataLoaded; Print SmallDataWarning;
      Print (TotalEmails 2 1 1); TrainTestSplit; FitVectorizer; FitModel;
      Connect; Print ModelEvaluation; Print EvaluationSkipped;
      Print InteractiveMode; Print Usage;
      Prompt EnterEmailText; Analyze "Your account is suspended";
      Print (Result "phishing" (7000 # 100)%Q);
      Print (DatabaseError sqlite3_Error); Prompt WasThisCorrect;
      Prompt EnterEmailText; Print DatabaseSummary;
      Print (TotalDetections 0); Print (FalsePositives 0);
      Prompt EnterEmailText;
      Close; Print SessionEnded; Print AllSaved]).
Proof. vm_compute. reflexivity. Qed.

(** [round(x, 2)] rounds ties to the even neighbour. *)
Example round2_ties :
  Num.round2 (5 # 1000)%Q = (0 # 100)%Q /\
  Num.round2 (15 # 1000)%Q = (2 # 100)%Q /\
  Num.round2 (12345 # 100000)%Q = (12 # 100)%Q.
Proof. repeat split; vm_compute; reflexivity. Qed.

(** [strip] and [lower] on a command as typed. *)
Example strip_lower_quit : Str.lower (Str.strip "  QuIt  ") = "quit".
Proof. vm_compute. reflexivity. Qed.

(** * Facts about strings and numbers *)

Lemma lstrip_head s :
  Str.lstrip s = EmptyString \/
  exists c r, Str.lstrip s = String c r /\ Str.isspace c = false.
Proof.
  induction s as [|c r IH]; simpl.
  - now left.
  - destruct (Str.isspace c) eqn:Hc; [exact IH|].
    right. now exists c, r.
Qed.

Lemma rstrip_head c r :
  Str.isspace c = false -> exists r', Str.rstrip (String c r) = String c r'.
Proof.
  intros Hc. simpl. destruct (Str.rstrip r) as [|c' r'].
  - rewrite Hc. now exists EmptyString.
  - now exists (String c' r').
Qed.

Lemma rstrip_idem s : Str.rstrip (Str.rstrip s) = Str.rstrip s.
Proof.
  induction s as [|c r IH]; simpl; [reflexivity|].
  destruct (Str.rstrip r) as [|c' r'] eqn:Hr.
  - destruct (Str.isspace c) eqn:Hc; simpl; [reflexivity|].
    now rewrite Hc.
  - change (Str.rstrip (String c (String c' r'))) with
      (match Str.rstrip (String c' r') with
       | EmptyString => if Str.isspace c then EmptyString else String c EmptyString
       | r'' => String c r''
       end).
    now rewrite IH.
Qed.

Lemma strip_idem s : Str.strip (Str.strip s) = Str.strip s.
Proof.
  unfold Str.strip.
  destruct (lstrip_head s) as [H | (c & r & H & Hc)]; rewrite H.
  - reflexivity.
  - destruct (rstrip_head c r Hc) as [r' Hr].
    rewrite Hr. simpl Str.lstrip. rewrite Hc. rewrite <- Hr.
    apply rstrip_idem.
Qed.

Lemma lower_len s : Str.len (Str.lower s) = Str.len s.
Proof.
  unfold Str.len. induction s as [|c r IH]; simpl; congruence.
Qed.

Lemma is_empty_true s : Str.is_empty s = true <-> s = EmptyString.
Proof. destruct s; simpl; split; congruence. Qed.

Lemma is_empty_false s : Str.is_empty s = false <-> s <> EmptyString.
Proof. destruct s; simpl; split; congruence. Qed.

Lemma mem_In s l : Str.mem s l = true <-> In s l.
Proof.
  unfold Str.mem. rewrite existsb_exists. split.
  - intros (x & Hx & Heq). apply String.eqb_eq in Heq. now subst.
  - intros H. exists s. split; [exact H | apply String.eqb_refl].
Qed.

Lemma replicate_len n c : Str.len (Str.replicate n c) = n.
Proof. unfold Str.len. induction n; simpl; congruence. Qed.

Lemma round_half_even_nonneg x : (0 <= x)%Q -> (0 <= Num.round_half_even x)%Z.
Proof.
  intros Hx. unfold Num.round_half_even.
  assert (Hf : (0 <= Qfloor x)%Z).
  { change 0%Z with (Qfloor 0). now apply Qfloor_resp_le. }
  destruct (Qcompare _ _); [destruct (Z.even _)| |]; lia.
Qed.

Lemma round_half_even_upper x n :
  (x <= inject_Z n)%Q -> (Num.round_half_even x <= n)%Z.
Proof.
  intros Hx. unfold Num.round_half_even.
  assert (Hf : (Qfloor x <= n)%Z).
  { rewrite <- (Qfloor_Z n). now apply Qfloor_resp_le. }
  destruct (Z.eq_dec (Qfloor x) n) as [E | E].
  - assert (Hlt : (x - inject_Z (Qfloor x) < 1 # 2)%Q).
    { rewrite E. apply Qle_lt_trans with (y := 0%Q); [|reflexivity].
      apply (proj1 (Qle_minus_iff _ _)) in Hx.
      setoid_replace (x - inject_Z n)%Q with (- (inject_Z n + - x))%Q by ring.
      now apply (Qopp_le_compat 0) in Hx. }
    assert (Hc : Qcompare (x - inject_Z (Qfloor x)) (1 # 2) = Lt)
      by (apply -> Qlt_alt; exact Hlt).
    rewrite Hc. lia.
  - destruct (Qcompare _ _); [destruct (Z.even _)| |]; lia.
Qed.

Lemma round2_percent p :
  (0 <= p)%Q -> (p <= 1)%Q ->
  (0 <= Num.round2 (p * 100))%Q /\ (Num.round2 (p * 100) <= 100)%Q.
Proof.
  intros H0 H1. unfold Num.round2.
  assert (Hlo : (0 <= Num.round_half_even (p * 100 * 100))%Z).
  { apply round_half_even_nonneg.
    repeat apply Qmult_le_0_compat; try exact H0; discriminate. }
  assert (Hhi : (Num.round_half_even (p * 100 * 100) <= 10000)%Z).
  { apply round_half_even_upper.
    setoid_replace (inject_Z 10000) with (1 * 100 * 100)%Q by reflexivity.
    repeat apply Qmult_le_compat_r; try exact H1; discriminate. }
  unfold Qle; simpl. lia.
Qed.

Lemma max_spec a m :
  Num.max a = Some m -> In m a /\ Forall (fun x => (x <= m)%Q) a.
Proof.
  revert m. induction a as [|x r IH]; intros m H; simpl in H; [discriminate|].
  destruct (Num.max r) as [m'|] eqn:Hr.
  - destruct (IH m' eq_refl) as [Hin Hall].
    destruct (Qle_bool x m') eqn:Hle; injection H as <-.
    + apply Qle_bool_iff in Hle. split; [now right|]. now constructor.
    + assert (Hlt : (m' <= x)%Q).
      { destruct (Qlt_le_dec m' x) as [Hl | Hl]; [now apply Qlt_le_weak|].
        apply Qle_bool_iff in Hl. congruence. }
      split; [now left|]. constructor; [apply Qle_refl|].
      eapply Forall_impl; [|exact Hall]. intros y Hy. simpl in Hy.
      now apply Qle_trans with (y := m').
  - injection H as <-. destruct r; [|simpl in Hr; destruct (Num.max r); discriminate].
    split; [now left|]. constructor; [apply Qle_refl | constructor].
Qed.

Lemma max_nonempty a : a <> [] -> exists m, Num.max a = Some m.
Proof.
  destruct a as [|x r]; [congruence|]. intros _. simpl.
  destruct (Num.max r); eauto.
Qed.

Lemma sum_nonneg a : Forall (fun x => (0 <= x)%Q) a -> (0 <= Num.sum a)%Q.
Proof.
  induction 1 as [|x r Hx _ IH]; simpl; [apply Qle_refl|].
  setoid_replace 0%Q with (0 + 0)%Q by reflexivity.
  now apply Qplus_le_compat.
Qed.

Lemma member_le_sum a m :
  Forall (fun x => (0 <= x)%Q) a -> In m a -> (m <= Num.sum a)%Q.
Proof.
  induction 1 as [|x r Hx Hr IH]; intros Hin; simpl in *; [contradiction|].
  destruct Hin as [-> | Hin].
  - setoid_replace m with (m + 0)%Q at 1 by ring.
    apply Qplus_le_compat; [apply Qle_refl | now apply sum_nonneg].
  - setoid_replace m with (0 + m)%Q at 1 by ring.
    apply Qplus_le_compat; [exact Hx | now apply IH].
Qed.

Lemma distribution_max p :
  is_distribution p ->
  exists m, Num.max p = Some m /\ (0 <= m)%Q /\ (m <= 1)%Q.
Proof.
  intros [Hpos Hsum].
  assert (Hne : p <> []).
  { intros ->. simpl in Hsum. discriminate. }
  destruct (max_nonempty p Hne) as [m Hm]. exists m. split; [exact Hm|].
  destruct (max_spec p m Hm) as [Hin _]. split.
  - rewrite Forall_forall in Hpos. now apply Hpos.
  - rewrite <- Hsum. now apply member_le_sum.
Qed.

(** * Rules for the monad *)

Section Rules.

Context {A B : Type}.

Lemma bind_ret (m : M A) (k : A -> M B) w a w' :
  m w = (Ret a, w') -> bind m k w = k a w'.
Proof. unfold bind. now intros ->. Qed.

Lemma bind_raise (m : M A) (k : A -> M B) w e w' :
  m w = (Raise e, w') -> bind m k w = (Raise e, w').
Proof. unfold bind. now intros ->. Qed.

Lemma returns_ret (a : A) (Q : A -> Prop) : Q a -> returns (ret a) Q.
Proof. intros H w a' w' E. injection E as <- _. exact H. Qed.

Lemma returns_raise e (Q : A -> Prop) : returns (raise e) Q.
Proof. intros w a w' E. discriminate. Qed.

Lemma returns_bind (m : M A) (k : A -> M B) (P : A -> Prop) (Q : B -> Prop) :
  returns m P -> (forall a, P a -> returns (k a) Q) -> returns (bind m k) Q.
Proof.
  intros Hm Hk w b w' E. unfold bind in E.
  destruct (m w) as [[a | e |] w1] eqn:Em; try discriminate.
  exact (Hk a (Hm _ _ _ Em) _ _ _ E).
Qed.

Lemma returns_weaken (m : M A) (P Q : A -> Prop) :
  returns m P -> (forall a, P a -> Q a) -> returns m Q.
Proof. intros Hm HPQ w a w' E. apply HPQ. exact (Hm _ _ _ E). Qed.

Lemma returns_try (catches : exn -> bool) (body : M A) (handler : exn -> M A)
    (Q : A -> Prop) :
  returns body Q -> (forall e, returns (handler e) Q) ->
  returns (try_except catches body handler) Q.
Proof.
  intros Hb Hh w a w' E. unfold try_except in E.
  destruct (body w) as [[a1 | e |] w1] eqn:Eb.
  - injection E as <- _. exact (Hb _ _ _ Eb).
  - destruct (catches e); [exact (Hh e _ _ _ E) | discriminate].
  - discriminate.
Qed.

Variable R : World -> World -> Prop.
Hypothesis R_refl : forall w, R w w.
Hypothesis R_trans : forall w1 w2 w3, R w1 w2 -> R w2 w3 -> R w1 w3.

Lemma preserves_ret (a : A) : preserves R (ret a).
Proof. intros w. apply R_refl. Qed.

Lemma preserves_raise e : preserves R (@raise A e).
Proof. intros w. apply R_refl. Qed.

Lemma preserves_bind (m : M A) (k : A -> M B) (P : A -> Prop) :
  preserves R m -> returns m P -> (forall a, P a -> preserves R (k a)) ->
  preserves R (bind m k).
Proof.
  intros Hm Hr Hk w. unfold bind. specialize (Hm w).
  destruct (m w) as [[a | e |] w1] eqn:Em; simpl in *; try exact Hm.
  eapply R_trans; [exact Hm|]. apply Hk. exact (Hr _ _ _ Em).
Qed.

Lemma preserves_try (catches : exn -> bool) (body : M A)
    (handler : exn -> M A) :
  preserves R body -> (forall e, preserves R (handler e)) ->
  preserves R (try_except catches body handler).
Proof.
  intros Hb Hh w. unfold try_except. specialize (Hb w).
  destruct (body w) as [[a | e |] w1]; simpl in *; try exact Hb.
  destruct (catches e); simpl; [|exact Hb].
  eapply R_trans; [exact Hb | apply Hh].
Qed.

End Rules.

Lemma returns_any {A} (m : M A) : returns m (fun _ => True).
Proof. intros w a w' _. exact I. Qed.

Lemma extends_refl P G F w : extends P G F w w.
Proof.
  constructor; try (exists []; rewrite app_nil_r; split; [reflexivity | constructor]).
  now exists [].
Qed.

Lemma extends_trans P G F w1 w2 w3 :
  extends P G F w1 w2 -> extends P G F w2 w3 -> extends P G F w1 w3.
Proof.
  intros [(e1 & He1 & Pe1) (d1 & Hd1 & Gd1) (f1 & Hf1 & Ff1) (u1 & Hu1)]
         [(e2 & He2 & Pe2) (d2 & Hd2 & Gd2) (f2 & Hf2 & Ff2) (u2 & Hu2)].
  constructor.
  - exists (e1 ++ e2)%list. rewrite He2, He1, app_assoc. split; [reflexivity|].
    apply Forall_app. now split.
  - exists (d1 ++ d2)%list. rewrite Hd2, Hd1, app_assoc. split; [reflexivity|].
    apply Forall_app. now split.
  - exists (f1 ++ f2)%list. rewrite Hf2, Hf1, app_assoc. split; [reflexivity|].
    apply Forall_app. now split.
  - exists (u1 ++ u2)%list. now rewrite Hu1, Hu2, app_assoc.
Qed.

Lemma extends_weaken (P P' : event -> Prop) G F w w' :
  (forall e, P e -> P' e) -> extends P G F w w' -> extends P' G F w w'.
Proof.
  intros HP [(e1 & He1 & Pe1) Hd Hf Hs]. constructor; try assumption.
  exists e1. split; [exact He1|]. eapply Forall_impl; [|exact Pe1]. exact HP.
Qed.

(** * The primitive operations *)

Section Primitives.

Variables (P : event -> Prop) (G : Detection -> Prop) (F : FalsePositive -> Prop).

Lemma extends_log e w :
  P e ->
  extends P G F w (mkWorld (stdin w) (write_faults w) (detections w)
                           (false_positives w) (trace w ++ [e])).
Proof.
  intros He. constructor; simpl.
  - exists [e]. split; [reflexivity | now constructor].
  - exists []. rewrite app_nil_r. split; [reflexivity | constructor].
  - exists []. rewrite app_nil_r. split; [reflexivity | constructor].
  - now exists [].
Qed.

Lemma log_preserves e : P e -> preserves (extends P G F) (log e).
Proof. intros He w. now apply extends_log. Qed.

Lemma print_preserves o : P (Print o) -> preserves (extends P G F) (print o).
Proof. apply log_preserves. Qed.

Lemma input_preserves p :
  P (Prompt p) -> preserves (extends P G F) (input p).
Proof.
  intros Hp. unfold input.
  apply preserves_bind with (P := fun _ => True);
    [apply extends_trans | now apply log_preserves | apply returns_any |].
  intros _ _ w. cbv beta.
  destruct (stdin w) as [|line rest] eqn:Hs; simpl; [apply extends_refl|].
  constructor; simpl;
    try (exists []; rewrite app_nil_r; split; [reflexivity | constructor]).
  rewrite Hs. now exists [line].
Qed.

Lemma next_fault_preserves : preserves (extends P G F) next_fault.
Proof.
  intros w. unfold next_fault.
  destruct (write_faults w); simpl; [apply extends_refl|].
  constructor; simpl; try (exists []; rewrite app_nil_r; split; [reflexivity | constructor]).
  now exists [].
Qed.

Lemma insert_detection_preserves d :
  G d -> preserves (extends P G F) (execute_insert_detection d).
Proof.
  intros Hd. unfold execute_insert_detection.
  apply preserves_bind with (P := fun _ => True);
    [apply extends_trans | apply next_fault_preserves | apply returns_any |].
  intros [|] _; [apply preserves_raise, extends_refl|].
  intros w. constructor; simpl;
    try (exists []; rewrite app_nil_r; split; [reflexivity | constructor]).
  - exists [d]. split; [reflexivity | now constructor].
  - now exists [].
Qed.

Lemma insert_false_positive_preserves f :
  F f -> preserves (extends P G F) (execute_insert_false_positive f).
Proof.
  intros Hf. unfold execute_insert_false_positive.
  apply preserves_bind with (P := fun _ => True);
    [apply extends_trans | apply next_fault_preserves | apply returns_any |].
  intros [|] _; [apply preserves_raise, extends_refl|].
  intros w. constructor; simpl;
    try (exists []; rewrite app_nil_r; split; [reflexivity | constructor]).
  - exists [f]. split; [reflexivity | now constructor].
  - now exists [].
Qed.

Lemma commit_preserves : preserves (extends P G F) commit.
Proof. apply preserves_ret, extends_refl. Qed.

Lemma count_detections_preserves : preserves (extends P G F) count_detections.
Proof. intros w. apply extends_refl. Qed.

Lemma count_false_positives_preserves :
  preserves (extends P G F) count_false_positives.
Proof. intros w. apply extends_refl. Qed.

End Primitives.

(** * The prediction service *)

Lemma analyze_email_world tm email w :
  snd (analyze_email tm email w) = w.
Proof.
  unfold analyze_email.
  destruct (Str.is_empty _); [reflexivity|].
  destruct (_ <? _)%nat; [reflexivity|].
  destruct (Num.max _); reflexivity.
Qed.

Lemma analyze_email_returns tm email :
  returns (analyze_email tm email)
    (fun r => Str.len email <= 1000 /\
              fst r = predict (model tm) (transform (vectorizer tm) (CStr email))).
Proof.
  intros w r w' E. unfold analyze_email in E.
  destruct (Str.is_empty _); [discriminate|].
  destruct (_ <? _)%nat eqn:Hlen; [discriminate|].
  apply Nat.ltb_ge in Hlen.
  destruct (Num.max _); [|discriminate].
  injection E as <- _. now split.
Qed.

Lemma eqb_len_neq s t : Str.len s <> Str.len t -> String.eqb s t = false.
Proof.
  intros H. apply String.eqb_neq. intros ->. now apply H.
Qed.

Lemma logged_logged w evs evs' :
  logged (logged w evs) evs' = logged w (evs ++ evs').
Proof. unfold logged. simpl. now rewrite app_assoc. Qed.

Lemma logged_after_line w evs evs' :
  logged (after_line w evs) evs' = after_line w (evs ++ evs').
Proof. unfold logged, after_line. simpl. now rewrite app_assoc. Qed.

Lemma log_eq e w : log e w = (Ret tt, logged w [e]).
Proof. reflexivity. Qed.

Lemma print_eq o w : print o w = (Ret tt, logged w [Print o]).
Proof. reflexivity. Qed.

Lemma input_line p w line rest :
  stdin w = line :: rest -> input p w = (Ret line, after_line w [Prompt p]).
Proof.
  intros Hw. unfold input, bind. rewrite log_eq. unfold logged, after_line.
  simpl. now rewrite Hw.
Qed.

Lemma input_eof p w :
  stdin w = [] -> input p w = (Raise EOFError, logged w [Prompt p]).
Proof.
  intros Hw. unfold input, bind. rewrite log_eq. unfold logged.
  simpl. now rewrite Hw.
Qed.

Lemma loop_body_line tm w line rest :
  stdin w = line :: rest ->
  loop_body tm w = dispatch tm line (after_line w [Prompt EnterEmailText]).
Proof.
  intros Hw. unfold loop_body. apply bind_ret. eapply input_line, Hw.
Qed.

Lemma loop_body_eof tm w :
  stdin w = [] ->
  loop_body tm w = (Raise EOFError, logged w [Prompt EnterEmailText]).
Proof.
  intros Hw. unfold loop_body. apply bind_raise. now apply input_eof.
Qed.

Lemma predict_and_record_rejected tm email e w :
  analyze_email tm email (logged w [Analyze email]) =
    (Raise e, logged w [Analyze email]) ->
  is_Exception e = true ->
  predict_and_record tm email w =
    (Ret tt, logged w [Analyze email; Print (Error e)]).
Proof.
  intros Ha He. unfold predict_and_record, try_except.
  rewrite (bind_ret _ _ _ _ _ (log_eq _ _)).
  rewrite (bind_raise _ _ _ _ _ Ha), He, print_eq.
  now rewrite logged_logged.
Qed.

(** A line that is long enough to be classified is sent to the [try]
    block. *)
Lemma dispatch_long tm line w :
  10 <= Str.len (Str.strip line) ->
  String.eqb (Str.lower (Str.strip line)) "quit" = false ->
  String.eqb (Str.lower (Str.strip line)) "report" = false ->
  dispatch tm line w =
    (predict_and_record tm (Str.strip line) ;; ret Continue)%py w.
Proof.
  intros Hlen Hq Hr. unfold dispatch. cbv zeta. rewrite Hq, Hr.
  destruct (Str.is_empty (Str.strip line)) eqn:He.
  { apply is_empty_true in He. rewrite He in Hlen. simpl in Hlen. lia. }
  destruct (Str.len (Str.strip line) <? 10)%nat eqn:Hs; [|reflexivity].
  apply Nat.ltb_lt in Hs. lia.
Qed.

Lemma strip_replicate n c :
  Str.isspace c = false -> Str.strip (Str.replicate (S n) c) <> EmptyString.
Proof.
  intros Hc. unfold Str.strip.
  change (Str.replicate (S n) c) with (String c (Str.replicate n c)).
  change (Str.lstrip (String c (Str.replicate n c)))
    with (if Str.isspace c then Str.lstrip (Str.replicate n c)
          else String c (Str.replicate n c)).
  rewrite Hc. destruct (rstrip_head c (Str.replicate n c) Hc) as [r' Hr].
  rewrite Hr. discriminate.
Qed.

(** C2: [analyze_email] checks its preconditions in order.  A text that
    is empty once stripped raises the error for empty input; any other
    text of more than 1000 characters raises the error for over-long input
    and is never cut down to size.  So the empty text raises the first and
    1001 letters raise the second.  Neither error changes the world, and
    a turn of the loop whose text is over-long reports the error and
    leaves both tables as they were. *)
Theorem analyze_email_preconditions tm :
  (forall email w, Str.strip email = EmptyString ->
     analyze_email tm email w = (Raise (ValueError "Empty email text"), w)) /\
  (forall email w, Str.strip email <> EmptyString -> 1000 < Str.len email ->
     analyze_email tm email w =
       (Raise (ValueError "Email too long (max 1000 chars)"), w)) /\
  (forall w, analyze_email tm EmptyString w = (Raise (ValueError "Empty email text"), w)) /\
  (forall w, analyze_email tm (Str.replicate 1001 "a") w =
       (Raise (ValueError "Email too long (max 1000 chars)"), w)) /\
  (forall w line, next_line w line -> 1000 < Str.len (Str.strip line) ->
     loop_body tm w =
       (Ret Continue,
        after_line w [Prompt EnterEmailText; Analyze (Str.strip line);
                      Print (Error (ValueError "Email too long (max 1000 chars)"))])).
Proof.
  assert (Hempty : forall email w, Str.strip email = EmptyString ->
     analyze_email tm email w = (Raise (ValueError "Empty email text"), w)).
  { intros email w H. unfold analyze_email. now rewrite H. }
  assert (Hlong : forall email w, Str.strip email <> EmptyString -> 1000 < Str.len email ->
     analyze_email tm email w =
       (Raise (ValueError "Email too long (max 1000 chars)"), w)).
  { intros email w Hne Hlen. unfold analyze_email.
    apply is_empty_false in Hne. rewrite Hne.
    apply Nat.ltb_lt in Hlen. now rewrite Hlen. }
  split; [exact Hempty|]. split; [exact Hlong|].
  split; [|split].
  - intros w. now apply Hempty.
  - intros w. apply Hlong; [|rewrite replicate_len; lia].
    now apply (strip_replicate 1000 "a").
  - intros w line [rest Hw] Hlen.
    assert (Hne : Str.strip (Str.strip line) <> EmptyString).
    { rewrite strip_idem. intros E. rewrite E in Hlen. simpl in Hlen. lia. }
    rewrite (loop_body_line _ _ _ _ Hw).
    rewrite dispatch_long;
      [| lia | apply eqb_len_neq; rewrite lower_len; simpl; lia
       | apply eqb_len_neq; rewrite lower_len; simpl; lia].
    erewrite bind_ret;
      [| apply predict_and_record_rejected; [now apply Hlong | reflexivity]].
    now rewrite logged_after_line.
Qed.

(** The texts of the witness of C2: blanks only, and 1001 letters. *)
Lemma analyze_email_preconditions_witness :
  analyze_email Toy.tm "   " (Toy.world [] []) =
    (Raise (ValueError "Empty email text"), Toy.world [] []) /\
  analyze_email Toy.tm (Str.replicate 1001 "b") (Toy.world [] []) =
    (Raise (ValueError "Email too long (max 1000 chars)"), Toy.world [] []) /\
  detections (snd (loop_body Toy.tm (Toy.world [Str.replicate 1001 "b"] []))) = [].
Proof.
  destruct (analyze_email_preconditions Toy.tm) as (H1 & H2 & _ & _ & H5).
  split; [apply H1; reflexivity|].
  split.
  - apply H2; [vm_compute; discriminate | vm_compute; lia].
  - rewrite (H5 (Toy.world [Str.replicate 1001 "b"] []) (Str.replicate 1001 "b")).
    + reflexivity.
    + eexists. reflexivity.
    + vm_compute. lia.
Defined.

(** C9: [analyze_email] is a function of the text and the trained model
    alone: its result is the same in every world, and it leaves the world,
    hence the store, as it found it. *)
Theorem analyze_email_pure tm email :
  exists r, forall w, analyze_email tm email w = (r, w).
Proof.
  unfold analyze_email.
  destruct (Str.is_empty _); [eexists; reflexivity|].
  destruct (_ <? _)%nat; [eexists; reflexivity|].
  destruct (Num.max _); eexists; reflexivity.
Qed.

(** * The store *)

Lemma execute_insert_detection_eq d w :
  execute_insert_detection d w =
  match write_faults w with
  | true :: rest =>
      (Raise sqlite3_Error,
       mkWorld (stdin w) rest (detections w) (false_positives w) (trace w))
  | _ =>
      (Ret tt,
       mkWorld (stdin w) (tl (write_faults w)) (detections w ++ [d])
               (false_positives w) (trace w))
  end.
Proof.
  unfold execute_insert_detection, bind, next_fault.
  destruct (write_faults w) as [|[|] rest] eqn:Hf; simpl; rewrite ?Hf;
    reflexivity.
Qed.

Lemma execute_insert_false_positive_eq f w :
  execute_insert_false_positive f w =
  match write_faults w with
  | true :: rest =>
      (Raise sqlite3_Error,
       mkWorld (stdin w) rest (detections w) (false_positives w) (trace w))
  | _ =>
      (Ret tt,
       mkWorld (stdin w) (tl (write_faults w)) (detections w)
               (false_positives w ++ [f]) (trace w))
  end.
Proof.
  unfold execute_insert_false_positive, bind, next_fault.
  destruct (write_faults w) as [|[|] rest] eqn:Hf; simpl; rewrite ?Hf;
    reflexivity.
Qed.

Lemma save_to_db_eq email prediction confidence w :
  save_to_db email prediction confidence w =
  if Str.is_empty email || Str.is_empty prediction
  then (Ret tt, logged w [Print SkippingSave])
  else match write_faults w with
       | true :: rest =>
           (Ret tt,
            mkWorld (stdin w) rest (detections w) (false_positives w)
                    (trace w ++ [Print (DatabaseError sqlite3_Error)]))
       | _ =>
           (Ret tt,
            mkWorld (stdin w) (tl (write_faults w))
                    (detections w ++ [mkDetection email prediction confidence])
                    (false_positives w) (trace w))
       end.
Proof.
  unfold save_to_db. destruct (_ || _); [reflexivity|].
  unfold try_except, bind. rewrite execute_insert_detection_eq.
  destruct (write_faults w) as [|[|] rest]; reflexivity.
Qed.

(** * The turn of the loop *)

Lemma dispatch_quit tm line w :
  Str.lower (Str.strip line) = "quit" -> dispatch tm line w = (Ret Break, w).
Proof. intros H. unfold dispatch. cbv zeta. now rewrite H. Qed.

Lemma dispatch_report tm line w :
  Str.lower (Str.strip line) = "report" ->
  dispatch tm line w =
    (Ret Continue,
     logged w [Print DatabaseSummary;
               Print (TotalDetections (List.length (detections w)));
               Print (FalsePositives (List.length (false_positives w)))]).
Proof.
  intros H. unfold dispatch. cbv zeta. rewrite H. simpl.
  unfold bind, print, log, count_detections, count_false_positives, ret, logged.
  simpl. now rewrite <- !app_assoc.
Qed.

Lemma dispatch_empty tm line w :
  Str.strip line = EmptyString ->
  dispatch tm line w = (Ret Continue, logged w [Print ErrEmptyInput]).
Proof. intros H. unfold dispatch. cbv zeta. now rewrite H. Qed.

Lemma dispatch_short tm line w :
  Str.lower (Str.strip line) <> "quit" ->
  Str.lower (Str.strip line) <> "report" ->
  Str.strip line <> EmptyString ->
  Str.len (Str.strip line) < 10 ->
  dispatch tm line w = (Ret Continue, logged w [Print ErrTooShort]).
Proof.
  intros Hq Hr He Hs. unfold dispatch. cbv zeta.
  apply String.eqb_neq in Hq, Hr. rewrite Hq, Hr.
  apply is_empty_false in He. rewrite He.
  apply Nat.ltb_lt in Hs. now rewrite Hs.
Qed.

(** What [ask_feedback] does, case by case. *)
Lemma ask_feedback_eq email w :
  ask_feedback email w =
  match stdin w with
  | [] => (Raise EOFError, logged w [Prompt WasThisCorrect])
  | answer :: rest =>
      if String.eqb (Str.lower answer) "n" then
        match rest with
        | [] =>
            (Raise EOFError,
             mkWorld [] (write_faults w) (detections w) (false_positives w)
                     (trace w ++ [Prompt WasThisCorrect; Prompt WhatShouldItBe]))
        | answer' :: rest' =>
            let actual_label := Str.lower (Str.strip answer') in
            if Str.mem actual_label labels then
              match write_faults w with
              | true :: faults =>
                  (Raise sqlite3_Error,
                   mkWorld rest' faults (detections w) (false_positives w)
                           (trace w ++ [Prompt WasThisCorrect;
                                        Prompt WhatShouldItBe]))
              | _ =>
                  (Ret tt,
                   mkWorld rest' (tl (write_faults w)) (detections w)
                           (false_positives w ++
                              [mkFalsePositive email actual_label])
                           (trace w ++ [Prompt WasThisCorrect;
                                        Prompt WhatShouldItBe;
                                        Print FeedbackSaved]))
              end
            else
              (Ret tt,
               mkWorld rest' (write_faults w) (detections w) (false_positives w)
                       (trace w ++ [Prompt WasThisCorrect;
                                    Prompt WhatShouldItBe; Print InvalidLabel]))
        end
      else (Ret tt, after_line w [Prompt WasThisCorrect])
  end.
Proof.
  unfold ask_feedback.
  destruct (stdin w) as [|answer rest] eqn:Hw.
  { apply bind_raise. now apply input_eof. }
  rewrite (bind_ret _ _ _ _ _ (input_line _ _ _ _ Hw)).
  destruct (String.eqb (Str.lower answer) "n"); [|reflexivity].
  destruct rest as [|answer' rest'].
  { erewrite bind_raise; [|apply input_eof; unfold after_line; simpl; now rewrite Hw].
    unfold logged, after_line. simpl. rewrite Hw. simpl.
    now rewrite <- app_assoc. }
  erewrite bind_ret;
    [|eapply input_line; unfold after_line; simpl; rewrite Hw; reflexivity].
  cbv zeta. destruct (Str.mem _ labels).
  - unfold bind. rewrite execute_insert_false_positive_eq.
    unfold after_line. simpl. rewrite Hw. simpl.
    destruct (write_faults w) as [|[|] faults]; simpl;
      rewrite ?print_eq; unfold logged; simpl; now rewrite <- !app_assoc.
  - rewrite print_eq. unfold logged, after_line. simpl. rewrite Hw. simpl.
    now rewrite <- !app_assoc.
Qed.




(** * What a turn can raise *)

Section Raising.

Context {A B : Type}.

Lemma raises_only_ret E (a : A) : raises_only E (ret a).
Proof. intros w. exact I. Qed.

Lemma raises_only_raise (E : exn -> Prop) e : E e -> raises_only E (@raise A e).
Proof. intros He w. exact He. Qed.

Lemma raises_only_bind E (m : M A) (k : A -> M B) :
  raises_only E m -> (forall a, raises_only E (k a)) ->
  raises_only E (bind m k).
Proof.
  intros Hm Hk w. unfold bind. specialize (Hm w).
  destruct (m w) as [[a | e |] w1]; simpl in *; try exact Hm.
  apply Hk.
Qed.

Lemma raises_only_weaken (E E' : exn -> Prop) (m : M A) :
  (forall e, E e -> E' e) -> raises_only E m -> raises_only E' m.
Proof.
  intros HE Hm w. specialize (Hm w).
  destruct (fst (m w)); auto.
Qed.

Lemma raises_only_try (E E' : exn -> Prop) catches (body : M A) handler :
  raises_only E body ->
  (forall e, E e -> catches e = true \/ E' e) ->
  (forall e, raises_only E' (handler e)) ->
  raises_only E' (try_except catches body handler).
Proof.
  intros Hb Hc Hh w. unfold try_except. specialize (Hb w).
  destruct (body w) as [[a | e |] w1]; simpl in *; try exact Hb.
  destruct (catches e) eqn:Hce; [apply Hh|]. simpl.
  destruct (Hc e Hb) as [H | H]; [congruence | exact H].
Qed.

End Raising.

Lemma raises_only_log E e : raises_only E (log e).
Proof. intros w. exact I. Qed.

Lemma raises_only_input p : raises_only (eq EOFError) (input p).
Proof.
  intros w. unfold input, bind, log. simpl.
  destruct (stdin w); simpl; auto.
Qed.

Lemma raises_only_analyze_email tm email :
  raises_only (fun e => exists msg, e = ValueError msg) (analyze_email tm email).
Proof.
  intros w. unfold analyze_email.
  destruct (Str.is_empty _); [simpl; eauto|].
  destruct (_ <? _)%nat; [simpl; eauto|].
  destruct (Num.max _); simpl; eauto.
Qed.

Lemma raises_only_save_to_db E email prediction confidence :
  raises_only E (save_to_db email prediction confidence).
Proof.
  intros w. rewrite save_to_db_eq.
  destruct (_ || _); [exact I|].
  destruct (write_faults w) as [|[|] rest]; exact I.
Qed.

Lemma raises_only_ask_feedback email :
  raises_only (fun e => is_Exception e = true) (ask_feedback email).
Proof.
  intros w. rewrite ask_feedback_eq.
  destruct (stdin w) as [|answer [|answer' rest]]; simpl; try reflexivity;
    destruct (String.eqb _ _); simpl; try reflexivity.
  destruct (Str.mem _ _); simpl; [|exact I].
  destruct (write_faults w) as [|[|] faults]; simpl; reflexivity || exact I.
Qed.

Lemma raises_only_predict_and_record E tm email :
  raises_only E (predict_and_record tm email).
Proof.
  unfold predict_and_record.
  apply raises_only_try with (E := fun e => is_Exception e = true).
  - apply raises_only_bind; [apply raises_only_log|]. intros _.
    apply raises_only_bind.
    { eapply raises_only_weaken; [|apply raises_only_analyze_email].
      intros e [msg ->]. reflexivity. }
    intros [prediction confidence].
    apply raises_only_bind; [apply raises_only_log|]. intros _.
    apply raises_only_bind; [apply raises_only_save_to_db|]. intros _.
    apply raises_only_ask_feedback.
  - intros e He. now left.
  - intros e. apply raises_only_log.
Qed.

(** Once a turn has its line, nothing escapes it. *)
Lemma raises_only_dispatch E tm line : raises_only E (dispatch tm line).
Proof.
  intros w. unfold dispatch. cbv zeta.
  destruct (String.eqb _ "quit"); [exact I|].
  destruct (String.eqb _ "report"); [exact I|].
  destruct (Str.is_empty _); [exact I|].
  destruct (_ <? _)%nat; [exact I|].
  apply (raises_only_bind E); [apply raises_only_predict_and_record|].
  intros _. apply raises_only_ret.
Qed.

Lemma dispatch_total tm line : total (dispatch tm line).
Proof.
  intros w. pose proof (raises_only_dispatch (fun _ => False) tm line w) as H.
  destruct (dispatch tm line w) as [[c | e |] w']; simpl in H;
    [eauto | contradiction | contradiction].
Qed.

(** * The invariant of the session *)

Section SessionInvariant.

Variables (tm : TrainedModel) (L : string -> Prop).
Hypothesis predict_ok : forall v, L (predict (model tm) v).

Local Abbreviation R := (extends session_event (stored_with L) stored_feedback).
Local Abbreviation R_trans :=
  (extends_trans session_event (stored_with L) stored_feedback).
Local Abbreviation R_refl :=
  (extends_refl session_event (stored_with L) stored_feedback).

Ltac then_ := apply preserves_bind with (P := fun _ => True);
  [exact R_trans | | apply returns_any | intros ? _].

Lemma save_to_db_preserves email prediction confidence :
  Str.strip email = email -> 10 <= Str.len email <= 1000 -> L prediction ->
  preserves R (save_to_db email prediction confidence).
Proof.
  intros Hs Hlen Hl. unfold save_to_db.
  destruct (_ || _); [now apply print_preserves|].
  apply preserves_try; [exact R_trans | | intros e; now apply print_preserves].
  then_; [|apply commit_preserves].
  apply insert_detection_preserves. now repeat split.
Qed.

Lemma ask_feedback_preserves email : preserves R (ask_feedback email).
Proof.
  unfold ask_feedback.
  then_; [now apply input_preserves|]. cbv zeta.
  destruct (String.eqb _ _); [|apply preserves_ret, R_refl].
  then_; [now apply input_preserves|]. cbv zeta.
  destruct (Str.mem _ labels) eqn:Hm; [|now apply print_preserves].
  apply mem_In in Hm.
  then_; [now apply insert_false_positive_preserves|].
  then_; [apply commit_preserves | now apply print_preserves].
Qed.

Lemma predict_and_record_preserves email :
  Str.strip email = email -> 10 <= Str.len email ->
  preserves R (predict_and_record tm email).
Proof.
  intros Hs Hlen. unfold predict_and_record.
  apply preserves_try; [exact R_trans | | intros e; now apply print_preserves].
  then_; [apply log_preserves; now split|].
  eapply preserves_bind;
    [exact R_trans | | apply analyze_email_returns |].
  { intros w. rewrite analyze_email_world. apply R_refl. }
  intros [prediction confidence] [Hmax Hp]. simpl in Hp.
  then_; [now apply print_preserves|].
  then_; [|apply ask_feedback_preserves].
  apply save_to_db_preserves; [exact Hs | lia |].
  rewrite Hp. apply predict_ok.
Qed.

Lemma dispatch_preserves line : preserves R (dispatch tm line).
Proof.
  unfold dispatch. cbv zeta.
  destruct (String.eqb _ "quit"); [apply preserves_ret, R_refl|].
  destruct (String.eqb _ "report").
  { then_; [now apply print_preserves|].
    then_; [apply count_detections_preserves|].
    then_; [now apply print_preserves|].
    then_; [apply count_false_positives_preserves|].
    then_; [now apply print_preserves | apply preserves_ret, R_refl]. }
  destruct (Str.is_empty _).
  { then_; [now apply print_preserves | apply preserves_ret, R_refl]. }
  destruct (_ <? _)%nat eqn:Hlen.
  { then_; [now apply print_preserves | apply preserves_ret, R_refl]. }
  apply Nat.ltb_ge in Hlen.
  then_; [|apply preserves_ret, R_refl].
  apply predict_and_record_preserves; [apply strip_idem | exact Hlen].
Qed.

Lemma loop_body_preserves : preserves R (loop_body tm).
Proof.
  unfold loop_body. then_; [now apply input_preserves|].
  apply dispatch_preserves.
Qed.

Lemma loop_preserves fuel : preserves R (loop tm fuel).
Proof.
  induction fuel as [|k IH]; simpl.
  - intros w. apply R_refl.
  - then_; [apply loop_body_preserves|].
    destruct a; [apply preserves_ret, R_refl | exact IH].
Qed.

End SessionInvariant.

(** A turn that returns has read a line. *)
Lemma loop_body_reads tm w c w' :
  loop_body tm w = (Ret c, w') ->
  List.length (stdin w') < List.length (stdin w).
Proof.
  destruct (stdin w) as [|line rest] eqn:Hw.
  - rewrite (loop_body_eof _ _ Hw). discriminate.
  - rewrite (loop_body_line _ _ _ _ Hw). intros E.
    pose proof (dispatch_preserves tm (fun _ => True) (fun _ => I) line
                  (after_line w [Prompt EnterEmailText])) as H.
    rewrite E in H. destruct H as [_ _ _ [used H]]. simpl in H.
    rewrite Hw in H. simpl in *. rewrite H, length_app. lia.
Qed.

(** The loop ends by [quit] or by the end of input, and with fuel above
    the number of lines left it does end. *)
Lemma loop_ends tm fuel w :
  List.length (stdin w) < fuel ->
  match fst (loop tm fuel w) with
  | Ret _ => True
  | Raise e => e = EOFError
  | OutOfFuel => False
  end.
Proof.
  revert w. induction fuel as [|k IH]; intros w Hf; [lia|].
  simpl. unfold bind.
  destruct (loop_body tm w) as [[c | e |] w1] eqn:Eb.
  - destruct c; [exact I|]. apply IH.
    apply loop_body_reads in Eb. lia.
  - simpl. destruct (stdin w) as [|line rest] eqn:Hw.
    + rewrite (loop_body_eof _ _ Hw) in Eb. congruence.
    + rewrite (loop_body_line _ _ _ _ Hw) in Eb.
      destruct (dispatch_total tm line (after_line w [Prompt EnterEmailText]))
        as (c & w2 & E). congruence.
  - simpl. destruct (stdin w) as [|line rest] eqn:Hw.
    + rewrite (loop_body_eof _ _ Hw) in Eb. congruence.
    + rewrite (loop_body_line _ _ _ _ Hw) in Eb.
      destruct (dispatch_total tm line (after_line w [Prompt EnterEmailText]))
        as (c & w2 & E). congruence.
Qed.

Lemma dispatch_break tm line :
  returns (dispatch tm line)
          (fun c => c = Break -> Str.lower (Str.strip line) = "quit").
Proof.
  unfold dispatch. cbv zeta.
  destruct (String.eqb _ "quit") eqn:Hq.
  { apply String.eqb_eq in Hq. now apply returns_ret. }
  assert (Hc : forall (m : M unit),
             returns (m ;; ret Continue)%py
                     (fun c => c = Break -> Str.lower (Str.strip line) = "quit")).
  { intros m. eapply returns_bind; [apply returns_any|].
    intros _ _. apply returns_ret. discriminate. }
  destruct (String.eqb _ "report").
  { eapply returns_bind; [apply returns_any|]. intros _ _.
    eapply returns_bind; [apply returns_any|]. intros n _.
    eapply returns_bind; [apply returns_any|]. intros _ _.
    eapply returns_bind; [apply returns_any|]. intros m _.
    apply Hc. }
  destruct (Str.is_empty _); [apply Hc|].
  destruct (_ <? _)%nat; apply Hc.
Qed.

(** The loop returns only after it has read [quit]. *)
Lemma loop_quit tm fuel w w' :
  loop tm fuel w = (Ret tt, w') ->
  exists line, In line (stdin w) /\ Str.lower (Str.strip line) = "quit".
Proof.
  revert w. induction fuel as [|k IH]; intros w E; [discriminate|].
  simpl in E. unfold bind in E.
  destruct (loop_body tm w) as [[c | e |] w1] eqn:Eb; try discriminate.
  destruct (stdin w) as [|line rest] eqn:Hw.
  { rewrite (loop_body_eof _ _ Hw) in Eb. discriminate. }
  rewrite (loop_body_line _ _ _ _ Hw) in Eb.
  destruct c.
  - exists line. split; [now left|].
    now apply (dispatch_break tm line _ _ _ Eb).
  - destruct (IH _ E) as (line' & Hin & Hq).
    exists line'. split; [|exact Hq]. right.
    pose proof (dispatch_preserves tm (fun _ => True) (fun _ => I) line
                  (after_line w [Prompt EnterEmailText])) as H.
    rewrite Eb in H. destruct H as [_ _ _ [used H]]. simpl in H.
    rewrite Hw in H. simpl in H. rewrite H. apply in_or_app. now right.
Qed.

(** C5: a line of fewer than 10 characters once stripped is never passed
    to [analyze_email].  The turn that reads it logs no call of the
    prediction service: it ends the loop on [quit], prints the two counts
    on [report], and otherwise reports the empty or the too short input
    and goes back to the prompt.  And over the whole loop every text
    passed to [analyze_email] has at least 10 characters. *)
Theorem short_line_not_analyzed tm :
  (forall w line,
     next_line w line -> Str.len (Str.strip line) < 10 ->
     exists c evs,
       loop_body tm w = (Ret c, after_line w (Prompt EnterEmailText :: evs)) /\
       (forall email, ~ In (Analyze email) evs) /\
       ((Str.lower (Str.strip line) = "quit" /\ c = Break /\ evs = []) \/
        (Str.lower (Str.strip line) = "report" /\ c = Continue /\
         evs = [Print DatabaseSummary;
                Print (TotalDetections (List.length (detections w)));
                Print (FalsePositives (List.length (false_positives w)))]) \/
        (Str.strip line = EmptyString /\ c = Continue /\ evs = [Print ErrEmptyInput]) \/
        (Str.strip line <> EmptyString /\ c = Continue /\ evs = [Print ErrTooShort]))) /\
  (forall fuel w email,
     In (Analyze email) (trace (snd (loop tm fuel w))) ->
     In (Analyze email) (trace w) \/ 10 <= Str.len email).
Proof.
  split.
  - intros w line [rest Hw] Hlen.
    rewrite (loop_body_line _ _ _ _ Hw).
    destruct (string_dec (Str.lower (Str.strip line)) "quit") as [Hq | Hq].
    { exists Break, []. rewrite (dispatch_quit _ _ _ Hq).
      split; [reflexivity|]. split; [intros email []|]. now left. }
    destruct (string_dec (Str.lower (Str.strip line)) "report") as [Hr | Hr].
    { eexists Continue, _. rewrite (dispatch_report _ _ _ Hr).
      rewrite logged_after_line. split; [reflexivity|]. split.
      - intros email [H | [H | [H | []]]]; discriminate.
      - right; left. now repeat split. }
    destruct (string_dec (Str.strip line) EmptyString) as [He | He].
    { exists Continue, [Print ErrEmptyInput]. rewrite (dispatch_empty _ _ _ He).
      rewrite logged_after_line. split; [reflexivity|]. split.
      - intros email [H | []]; discriminate.
      - right; right; left. now repeat split. }
    exists Continue, [Print ErrTooShort].
    rewrite (dispatch_short _ _ _ Hq Hr He Hlen).
    rewrite logged_after_line. split; [reflexivity|]. split.
    + intros email [H | []]; discriminate.
    + right; right; right. now repeat split.
  - intros fuel w email Hin.
    destruct (loop_preserves tm (fun _ => True) (fun _ => I) fuel w)
      as [(evs & Ht & Hev) _ _ _].
    rewrite Ht in Hin. apply in_app_or in Hin. destruct Hin as [Hin | Hin].
    + now left.
    + right. rewrite Forall_forall in Hev. apply Hev in Hin.
      simpl in Hin. tauto.
Qed.

(** The witness of C5: a short line at the prompt. *)
Lemma short_line_not_analyzed_witness :
  next_line (Toy.world ["  hello  "; "quit"] []) "  hello  " /\
  loop_body Toy.tm (Toy.world ["  hello  "; "quit"] []) =
    (Ret Continue,
     after_line (Toy.world ["  hello  "; "quit"] [])
                [Prompt EnterEmailText; Print ErrTooShort]).
Proof.
  assert (Hn : next_line (Toy.world ["  hello  "; "quit"] []) "  hello  ").
  { now exists ["quit"]. }
  split; [exact Hn|].
  destruct (short_line_not_analyzed Toy.tm) as [H _].
  destruct (H (Toy.world ["  hello  "; "quit"] []) "  hello  " Hn)
    as (c & evs & Heq & _ & Hcases).
  { vm_compute. lia. }
  rewrite Heq.
  destruct Hcases as [(Hq & _) | [(Hr & _) | [(He & _) | (_ & -> & ->)]]].
  - vm_compute in Hq. discriminate.
  - vm_compute in Hr. discriminate.
  - vm_compute in He. discriminate.
  - reflexivity.
Defined.

(** C8: [report] reads the two counts and changes nothing else.  Two
    reports in a row print the same counts, and after each the tables and
    the writes to come are what they were; only the two lines are gone
    from standard input and the output is in the trace. *)
Theorem report_is_idempotent tm w line1 line2 rest :
  stdin w = line1 :: line2 :: rest ->
  Str.lower (Str.strip line1) = "report" ->
  Str.lower (Str.strip line2) = "report" ->
  let counts :=
    [Prompt EnterEmailText; Print DatabaseSummary;
     Print (TotalDetections (List.length (detections w)));
     Print (FalsePositives (List.length (false_positives w)))] in
  let w1 := mkWorld (line2 :: rest) (write_faults w) (detections w)
                    (false_positives w) (trace w ++ counts) in
  let w2 := mkWorld rest (write_faults w) (detections w)
                    (false_positives w) ((trace w ++ counts) ++ counts) in
  loop_body tm w = (Ret Continue, w1) /\
  loop_body tm w1 = (Ret Continue, w2).
Proof.
  intros Hw H1 H2. cbv zeta. split.
  - rewrite (loop_body_line _ _ _ _ Hw), (dispatch_report _ _ _ H1).
    rewrite logged_after_line. unfold after_line. now rewrite Hw.
  - erewrite loop_body_line by reflexivity.
    rewrite (dispatch_report _ _ _ H2).
    rewrite logged_after_line. reflexivity.
Qed.

(** The witness of C8: two reports, in two spellings. *)
Lemma report_is_idempotent_witness :
  let w := Toy.world ["report"; " REPORT "; "quit"] [] in
  exists w1 w2,
    loop_body Toy.tm w = (Ret Continue, w1) /\
    loop_body Toy.tm w1 = (Ret Continue, w2) /\
    detections w2 = detections w /\ false_positives w2 = false_positives w.
Proof.
  cbv zeta.
  destruct (report_is_idempotent Toy.tm
              (Toy.world ["report"; " REPORT "; "quit"] [])
              "report" " REPORT " ["quit"] eq_refl eq_refl eq_refl)
    as [H1 H2].
  eexists. eexists. split; [exact H1|]. split; [exact H2|].
  split; reflexivity.
Defined.

(** * Loading and training *)

Lemma cell_eqb_eq a b : cell_eqb a b = true <-> a = b.
Proof.
  destruct a, b; simpl; split; intros H; try discriminate; try reflexivity.
  - apply String.eqb_eq in H. now subst.
  - injection H as ->. apply String.eqb_refl.
  - apply Z.eqb_eq in H. now subst.
  - injection H as ->. apply Z.eqb_refl.
Qed.

Lemma unique_In v col : In v col -> In v (unique col).
Proof.
  induction col as [|x r IH]; simpl; [tauto|].
  intros [-> | Hin]; [now left|].
  destruct (cell_eqb x v) eqn:E.
  - apply cell_eqb_eq in E. now left.
  - right. apply filter_In. split; [now apply IH | now rewrite E].
Qed.

Lemma column_Some data name :
  In name (columns data) -> exists col, column data name = Some col.
Proof.
  induction data as [|[c col] rest IH]; simpl; [tauto|].
  destruct (String.eqb c name) eqn:E; [eauto|].
  intros [-> | Hin]; [|now apply IH].
  now rewrite String.eqb_refl in E.
Qed.

Lemma has_columns_true data :
  has_columns data = true <->
  In "text" (columns data) /\ In "label" (columns data).
Proof.
  unfold has_columns. simpl. rewrite !andb_true_iff, !mem_In. tauto.
Qed.

Lemma load_data_rejects data w msg :
  (has_columns data = false /\
   msg = "CSV must contain 'text' and 'label' columns") \/
  (has_columns data = true /\
   (exists label, column data "label" = Some label /\
                  forallb (fun l => cell_in l labels) (unique label) = false) /\
   msg = "Labels must be 'phishing' or 'legitimate'") ->
  load_data (inr data) w =
    (Raise SystemExit,
     logged w [Print Banner; Print DataLoaded;
               Print (ErrorLoading (ValueError msg)); Exit]).
Proof.
  intros H. unfold load_data.
  rewrite (bind_ret _ _ _ _ _ (print_eq _ _)).
  unfold try_except.
  rewrite (bind_ret _ _ (logged w [Print Banner]) data (logged w [Print Banner]))
    by reflexivity.
  rewrite (bind_ret _ _ _ _ _ (print_eq _ _)), logged_logged.
  fold (has_columns data).
  destruct H as [[Hc ->] | (Hc & (label & Hl & Hbad) & ->)]; rewrite Hc; simpl negb; cbv iota.
  - erewrite bind_raise by reflexivity. simpl is_Exception. cbv iota.
    rewrite (bind_ret _ _ _ _ _ (print_eq _ _)), logged_logged.
    unfold exit. rewrite (bind_ret _ _ _ _ _ (log_eq _ _)), logged_logged.
    reflexivity.
  - erewrite bind_ret by reflexivity.
    erewrite bind_ret by (unfold getitem; rewrite Hl; reflexivity).
    rewrite Hbad. simpl negb. cbv iota.
    erewrite bind_raise by reflexivity. simpl is_Exception. cbv iota.
    rewrite (bind_ret _ _ _ _ _ (print_eq _ _)), logged_logged.
    unfold exit. rewrite (bind_ret _ _ _ _ _ (log_eq _ _)), logged_logged.
    reflexivity.
Qed.

(** C4: a dataset that lacks the text or the label column, or whose label
    column holds anything but the two labels, makes the script report the
    validation error and exit.  Nothing was split or fitted and the store
    was not opened: the trace holds the banner, the two messages and the
    exit, and the world is otherwise untouched, so no model exists. *)
Theorem invalid_dataset_aborts sk data w :
  missing_column data \/ unrecognized_label data ->
  let msg := if has_columns data
             then "Labels must be 'phishing' or 'legitimate'"
             else "CSV must contain 'text' and 'label' columns" in
  let evs := [Print Banner; Print DataLoaded;
              Print (ErrorLoading (ValueError msg)); Exit] in
  main sk (inr data) w = (Raise SystemExit, logged w evs) /\
  Forall (fun e => ~ training_event e /\ e <> Connect) evs.
Proof.
  intros H msg evs. split.
  2:{ subst evs. repeat constructor; try discriminate;
        intros [E | [E | E]]; discriminate. }
  subst evs msg. unfold main. apply bind_raise.
  apply load_data_rejects.
  destruct (has_columns data) eqn:Hc; [right | left; now split].
  split; [reflexivity|]. split; [|reflexivity].
  apply has_columns_true in Hc. destruct Hc as [Ht Hl].
  destruct H as [[H | H] | (col & v & Hcol & Hin & Hv)]; try contradiction.
  exists col. split; [exact Hcol|].
  destruct (forallb _ (unique col)) eqn:Hf; [|reflexivity].
  rewrite forallb_forall in Hf.
  rewrite (Hf v (unique_In _ _ Hin)) in Hv. discriminate.
Qed.

(** The witness of C4: the dataset without its label column. *)
Lemma invalid_dataset_aborts_witness :
  missing_column Toy.no_label /\
  main Toy.sk (inr Toy.no_label) (Toy.world ["quit"] []) =
    (Raise SystemExit,
     logged (Toy.world ["quit"] [])
       [Print Banner; Print DataLoaded;
        Print (ErrorLoading
                 (ValueError "CSV must contain 'text' and 'label' columns"));
        Exit]).
Proof.
  assert (Hm : missing_column Toy.no_label).
  { right. simpl. intros [H | []]. discriminate. }
  split; [exact Hm|].
  destruct (invalid_dataset_aborts Toy.sk Toy.no_label (Toy.world ["quit"] [])
              (or_introl Hm)) as [Heq _].
  rewrite Heq. reflexivity.
Defined.

Lemma bind_fuel {A B} (m : M A) (k : A -> M B) w w' :
  m w = (OutOfFuel, w') -> bind m k w = (OutOfFuel, w').
Proof. unfold bind. now intros ->. Qed.

Lemma call_returns {A} ev (r : exn + A) : returns (call ev r) (fun a => r = inr a).
Proof.
  unfold call. eapply returns_bind; [apply returns_any|]. intros _ _.
  destruct r as [e | a]; [apply returns_raise | now apply returns_ret].
Qed.

Lemma getitem_returns data name :
  returns (getitem data name) (fun col => column data name = Some col).
Proof.
  unfold getitem. destruct (column data name);
    [now apply returns_ret | apply returns_raise].
Qed.

(** The dataset that comes out of [load_data] has passed validation. *)
Lemma load_data_validated csv : returns (load_data csv) validated.
Proof.
  unfold load_data. eapply returns_bind; [apply returns_any|]. intros _ _.
  apply returns_try.
  - eapply returns_bind; [apply returns_any|]. intros data _.
    eapply returns_bind; [apply returns_any|]. intros _ _.
    eapply returns_bind; [apply returns_any|]. intros _ _.
    eapply returns_bind; [apply getitem_returns|]. intros label Hl.
    eapply returns_bind with
      (P := fun _ => forallb (fun l => cell_in l labels) (unique label) = true).
    { destruct (forallb _ (unique label));
        [now apply returns_ret | apply returns_raise]. }
    intros _ Hf.
    eapply returns_bind; [apply returns_any|]. intros _ _.
    eapply returns_bind; [apply returns_any|]. intros _ _.
    apply returns_ret. exists label. split; [exact Hl|].
    intros v Hin. rewrite forallb_forall in Hf.
    apply Hf. now apply unique_In.
  - intros e. eapply returns_bind; [apply returns_any|]. intros _ _.
    unfold exit. eapply returns_bind; [apply returns_any|]. intros _ _.
    apply returns_raise.
Qed.

(** Trained on a validated dataset, the classifier answers with one of
    the two labels. *)
Lemma train_returns sk data :
  split_sound sk -> fit_sound sk -> validated data ->
  returns (train sk data)
    (fun r => let '(tm, _, _, _) := r in
              forall v, In (predict (model tm) v) labels).
Proof.
  intros Hsplit Hfit (label & Hl & Hval). unfold train.
  eapply returns_bind; [apply returns_any|]. intros X _.
  eapply returns_bind; [apply getitem_returns|]. intros y Hy.
  eapply returns_bind; [apply call_returns|].
  intros [[[X_train X_test] y_train] y_test] Hs.
  eapply returns_bind; [apply returns_any|]. intros vec _. cbv zeta.
  eapply returns_bind; [apply call_returns|]. intros clf Hc.
  apply returns_ret. intros v. cbn [model].
  assert (Hin : In (CStr (predict clf v)) label).
  { rewrite Hy in Hl. injection Hl as <-.
    eapply Hsplit; [exact Hs|]. eapply Hfit. exact Hc. }
  apply Hval in Hin. cbn [cell_in] in Hin. now apply mem_In.
Qed.

Section Stages.

Variables (P : event -> Prop) (G : Detection -> Prop) (F : FalsePositive -> Prop).
Hypothesis P_session : forall e, session_event e -> P e.
Hypothesis P_exit : P Exit.
Hypothesis P_training : forall e, training_event e -> P e.

Local Abbreviation R := (extends P G F).
Local Abbreviation R_trans := (extends_trans P G F).
Local Abbreviation R_refl := (extends_refl P G F).

Lemma P_print o : P (Print o).
Proof. now apply P_session. Qed.

Ltac then_ := apply preserves_bind with (P := fun _ => True);
  [exact R_trans | | apply returns_any | intros ? _].

Lemma getitem_preserves data name : preserves R (getitem data name).
Proof.
  unfold getitem. destruct (column data name);
    [apply preserves_ret | apply preserves_raise]; exact R_refl.
Qed.

Lemma call_preserves {A} ev (r : exn + A) : P ev -> preserves R (call ev r).
Proof.
  intros Hev. unfold call. then_; [now apply log_preserves|].
  destruct r; [apply preserves_raise | apply preserves_ret]; exact R_refl.
Qed.

Lemma load_data_preserves csv : preserves R (load_data csv).
Proof.
  unfold load_data. then_; [apply print_preserves, P_print|].
  apply preserves_try; [exact R_trans | |].
  - then_.
    { destruct csv; [apply preserves_raise | apply preserves_ret]; exact R_refl. }
    then_; [apply print_preserves, P_print|].
    then_.
    { destruct (negb _); [apply preserves_raise | apply preserves_ret]; exact R_refl. }
    then_; [apply getitem_preserves|].
    then_.
    { destruct (negb _); [apply preserves_raise | apply preserves_ret]; exact R_refl. }
    then_.
    { destruct (_ <? _)%nat; [apply print_preserves, P_print | apply preserves_ret, R_refl]. }
    then_; [apply print_preserves, P_print | apply preserves_ret, R_refl].
  - intros e. then_; [apply print_preserves, P_print|].
    unfold exit. then_; [now apply log_preserves | apply preserves_raise, R_refl].
Qed.

Lemma train_preserves sk data : preserves R (train sk data).
Proof.
  unfold train. then_; [apply getitem_preserves|].
  then_; [apply getitem_preserves|].
  then_; [apply call_preserves, P_training; now left|].
  destruct a1 as [[[X_train X_test] y_train] y_test].
  then_; [apply call_preserves, P_training; right; now left|]. cbv zeta.
  then_; [apply call_preserves, P_training; right; now right|].
  apply preserves_ret, R_refl.
Qed.

Lemma evaluate_preserves tm X_test X_test_vec y_test :
  preserves R (evaluate tm X_test X_test_vec y_test).
Proof.
  unfold evaluate. then_; [apply print_preserves, P_print|].
  destruct (_ <? _)%nat; apply print_preserves, P_print.
Qed.

End Stages.

Lemma interactive_preserves tm L :
  (forall v, L (predict (model tm) v)) ->
  preserves (extends session_event (stored_with L) stored_feedback)
            (interactive tm).
Proof.
  intros HL. unfold interactive.
  apply preserves_bind with (P := fun _ => True);
    [apply extends_trans | now apply print_preserves | apply returns_any |].
  intros _ _.
  apply preserves_bind with (P := fun _ => True);
    [apply extends_trans | now apply print_preserves | apply returns_any |].
  intros _ _ w. now apply loop_preserves.
Qed.

Lemma raises_any_getitem data name : raises_only any_exn (getitem data name).
Proof. intros w. unfold getitem. destruct (column data name); exact I. Qed.

Lemma raises_any_call {A} ev (r : exn + A) : raises_only any_exn (call ev r).
Proof. intros w. unfold call, bind, log. destruct r; exact I. Qed.

Lemma raises_any_load_data csv : raises_only any_exn (load_data csv).
Proof.
  unfold load_data. apply raises_only_bind; [apply raises_only_log|]. intros _.
  apply raises_only_try with (E := any_exn).
  - apply raises_only_bind; [intros w; destruct csv; exact I|]. intros data.
    apply raises_only_bind; [apply raises_only_log|]. intros _.
    apply raises_only_bind; [intros w; destruct (negb _); exact I|]. intros _.
    apply raises_only_bind; [apply raises_any_getitem|]. intros label.
    apply raises_only_bind; [intros w; destruct (negb _); exact I|]. intros _.
    apply raises_only_bind; [intros w; destruct (_ <? _)%nat; exact I|]. intros _.
    apply raises_only_bind; [apply raises_only_log|]. intros _.
    apply raises_only_ret.
  - intros e _. now right.
  - intros e. apply raises_only_bind; [apply raises_only_log|]. intros _.
    unfold exit. apply raises_only_bind; [apply raises_only_log|]. intros _.
    now apply raises_only_raise.
Qed.

Lemma raises_any_train sk data : raises_only any_exn (train sk data).
Proof.
  unfold train.
  apply raises_only_bind; [apply raises_any_getitem|]. intros X.
  apply raises_only_bind; [apply raises_any_getitem|]. intros y.
  apply raises_only_bind; [apply raises_any_call|].
  intros [[[X_train X_test] y_train] y_test].
  apply raises_only_bind; [apply raises_any_call|]. intros vec. cbv zeta.
  apply raises_only_bind; [apply raises_any_call|]. intros clf.
  apply raises_only_ret.
Qed.

Lemma evaluate_eq tm X_test X_test_vec y_test w :
  exists o, evaluate tm X_test X_test_vec y_test w =
            (Ret tt, logged w [Print ModelEvaluation; Print o]).
Proof.
  unfold evaluate. rewrite (bind_ret _ _ _ _ _ (print_eq _ _)).
  destruct (_ <? _)%nat; eexists; rewrite print_eq, logged_logged; reflexivity.
Qed.

Lemma connect_eq w : connect w = (Ret tt, logged w [Connect]).
Proof. reflexivity. Qed.

Lemma cleanup_eq w :
  cleanup w = (Ret tt, logged w [Close; Print SessionEnded; Print AllSaved]).
Proof.
  unfold cleanup. rewrite (bind_ret _ _ _ _ _ (log_eq _ _)).
  rewrite (bind_ret _ _ _ _ _ (print_eq _ _)), print_eq, !logged_logged.
  reflexivity.
Qed.

Lemma interactive_eq tm w :
  interactive tm w =
    loop tm (S (List.length (stdin w)))
         (logged w [Print InteractiveMode; Print Usage]).
Proof.
  unfold interactive. rewrite (bind_ret _ _ _ _ _ (print_eq _ _)).
  rewrite (bind_ret _ _ _ _ _ (print_eq _ _)), logged_logged. reflexivity.
Qed.

Lemma session_event_not_connection e : session_event e -> not_connection e.
Proof. destruct e; simpl; intros H; try contradiction; split; discriminate. Qed.

Lemma training_event_not_connection e : training_event e -> not_connection e.
Proof. intros [-> | [-> | ->]]; split; discriminate. Qed.

Lemma not_connection_counts evs :
  Forall not_connection evs -> acquired evs = 0 /\ released evs = 0.
Proof.
  unfold acquired, released.
  induction 1 as [|e l [Hc Hd] _ [IH1 IH2]]; [now split|]. simpl.
  destruct (event_eq_dec e Connect); [contradiction|].
  destruct (event_eq_dec e Close); [contradiction|]. now split.
Qed.

Lemma acquired_app a b : acquired (a ++ b) = acquired a + acquired b.
Proof. apply count_occ_app. Qed.

Lemma released_app a b : released (a ++ b) = released a + released b.
Proof. apply count_occ_app. Qed.

(** The session, from the opening of the store on: its events are not
    connection events, it is left normally only by [quit], and it does
    not run out of fuel. *)
Lemma session_run tm X_test X_test_vec y_test w :
  let run := (evaluate tm X_test X_test_vec y_test ;; interactive tm)%py w in
  exists evs,
    trace (snd run) = (trace w ++ evs)%list /\
    Forall not_connection evs /\
    match fst run with
    | Ret _ => exists line, In line (stdin w) /\
                            Str.lower (Str.strip line) = "quit"
    | Raise e => True
    | OutOfFuel => False
    end.
Proof.
  cbv zeta.
  destruct (evaluate_eq tm X_test X_test_vec y_test w) as [o Ev].
  rewrite (bind_ret _ _ _ _ _ Ev).
  set (w1 := logged w [Print ModelEvaluation; Print o]).
  pose proof (interactive_preserves tm (fun _ => True) (fun _ => I) w1) as H.
  destruct H as [(evs & Ht & Hev) _ _ _].
  exists ([Print ModelEvaluation; Print o] ++ evs)%list.
  split; [rewrite Ht; unfold w1, logged; simpl; now rewrite <- app_assoc|].
  split.
  { apply Forall_app. split.
    - repeat constructor; discriminate.
    - eapply Forall_impl; [|exact Hev]. apply session_event_not_connection. }
  rewrite interactive_eq.
  pose proof (loop_ends tm (S (List.length (stdin w1)))
                (logged w1 [Print InteractiveMode; Print Usage])) as He.
  destruct (loop tm _ _) as [[[] | e |] w2] eqn:El; cbn [fst snd] in *.
  - apply loop_quit in El. exact El.
  - exact I.
  - apply He. cbn [logged stdin]. lia.
Qed.

(** * The whole script *)

Lemma bind_assoc {A B C} (m : M A) (k : A -> M B) (h : B -> M C) w :
  bind (bind m k) h w = bind m (fun a => bind (k a) h) w.
Proof. unfold bind. destruct (m w) as [[a | e |] w1]; reflexivity. Qed.

Lemma main_preserves sk csv :
  split_sound sk -> fit_sound sk ->
  preserves (extends (fun _ => True) stored_detection stored_feedback)
            (main sk csv).
Proof.
  intros Hsplit Hfit. unfold main.
  eapply preserves_bind;
    [apply extends_trans | now apply load_data_preserves
     | apply load_data_validated |].
  intros data Hval.
  eapply preserves_bind;
    [apply extends_trans | now apply train_preserves
     | now apply train_returns |].
  intros [[[tm X_test] X_test_vec] y_test] Htm.
  apply preserves_bind with (P := fun _ => True);
    [apply extends_trans | now apply log_preserves | apply returns_any |].
  intros _ _.
  apply preserves_bind with (P := fun _ => True);
    [apply extends_trans | now apply evaluate_preserves | apply returns_any |].
  intros _ _.
  apply preserves_bind with (P := fun _ => True);
    [apply extends_trans | | apply returns_any |].
  - intros w. eapply extends_weaken; [|now apply interactive_preserves].
    intros e _. exact I.
  - intros _ _. unfold cleanup.
    apply preserves_bind with (P := fun _ => True);
      [apply extends_trans | now apply log_preserves | apply returns_any |].
    intros _ _.
    apply preserves_bind with (P := fun _ => True);
      [apply extends_trans | now apply print_preserves | apply returns_any |].
    intros _ _. now apply print_preserves.
Qed.

(** C10: whatever the dataset and the input, every row the script adds to
    [detections] holds a text that is already stripped and has 10 to 1000
    characters, and a label that is one of the two, provided scikit-learn
    splits the labels it is given and predicts labels it was trained on.
    The rows that were in the table before the run are kept as they
    were. *)
Theorem stored_detections_invariant sk csv w :
  split_sound sk -> fit_sound sk ->
  exists ds,
    detections (snd (main sk csv w)) = (detections w ++ ds)%list /\
    Forall stored_detection ds.
Proof.
  intros Hsplit Hfit.
  destruct (main_preserves sk csv Hsplit Hfit w) as [_ H _ _]. exact H.
Qed.

Lemma toy_split_sound : split_sound Toy.sk.
Proof.
  intros X y X_train X_test y_train y_test E. simpl in E.
  injection E as _ _ <- _. apply incl_refl.
Qed.

Lemma toy_fit_sound : fit_sound Toy.sk.
Proof.
  intros Xv y_train clf E v. simpl in E.
  destruct y_train as [|[label | z |] rest]; try discriminate.
  injection E as <-. now left.
Qed.

(** The witness of C10: one message is classified and stored. *)
Lemma stored_detections_invariant_witness :
  let w := Toy.world ["  Your account is suspended  "; "y"; "quit"] [] in
  split_sound Toy.sk /\ fit_sound Toy.sk /\
  List.length (detections (snd (main Toy.sk (inr Toy.emails) w))) = 1 /\
  Forall stored_detection (detections (snd (main Toy.sk (inr Toy.emails) w))).
Proof.
  cbv zeta. split; [exact toy_split_sound|]. split; [exact toy_fit_sound|].
  split; [reflexivity|].
  destruct (stored_detections_invariant Toy.sk (inr Toy.emails)
              (Toy.world ["  Your account is suspended  "; "y"; "quit"] [])
              toy_split_sound toy_fit_sound) as (ds & Hds & Hall).
  rewrite Hds. exact Hall.
Defined.

(** Loading and training log no connection event and read no line. *)
Lemma startup_run sk csv w :
  let run := (data <- load_data csv ;; train sk data)%py w in
  (exists evs, trace (snd run) = (trace w ++ evs)%list /\
               Forall not_connection evs) /\
  (exists used, stdin w = (used ++ stdin (snd run))%list) /\
  fst run <> OutOfFuel.
Proof.
  cbv zeta.
  assert (Hp : preserves (extends not_connection (fun _ => True) (fun _ => True))
                 (data <- load_data csv ;; train sk data)%py).
  { apply preserves_bind with (P := fun _ => True);
      [apply extends_trans | | apply returns_any |].
    - apply load_data_preserves;
        [apply session_event_not_connection | split; discriminate].
    - intros data _. apply train_preserves, training_event_not_connection. }
  assert (Hr : raises_only any_exn (data <- load_data csv ;; train sk data)%py).
  { apply raises_only_bind; [apply raises_any_load_data|].
    intros data. apply raises_any_train. }
  specialize (Hp w). specialize (Hr w). destruct Hp as [Ht _ _ Hs].
  split; [exact Ht|]. split; [exact Hs|].
  intros E. rewrite E in Hr. exact Hr.
Qed.

(** * Loading, once more: what is accepted *)

Lemma unique_incl v col : In v (unique col) -> In v col.
Proof.
  induction col as [|x r IH]; simpl; [tauto|].
  intros [-> | Hin]; [now left|].
  apply filter_In in Hin. right. now apply IH.
Qed.

Lemma forallb_unique (f : cell -> bool) col :
  forallb f (unique col) = true <-> forall v, In v col -> f v = true.
Proof.
  rewrite forallb_forall. split; intros H v Hin; apply H.
  - now apply unique_In.
  - now apply unique_incl.
Qed.

Lemma load_data_accepts data w :
  acceptable data ->
  exists label,
    column data "label" = Some label /\
    load_data (inr data) w = (Ret data, logged w (load_events data label)).
Proof.
  intros [Hc (label & Hl & Hv)]. exists label. split; [exact Hl|].
  unfold load_data, load_events.
  rewrite (bind_ret _ _ _ _ _ (print_eq _ _)).
  unfold try_except.
  rewrite (bind_ret _ _ (logged w [Print Banner]) data (logged w [Print Banner]))
    by reflexivity.
  rewrite (bind_ret _ _ _ _ _ (print_eq _ _)), logged_logged.
  fold (has_columns data). rewrite Hc. simpl negb. cbv iota.
  erewrite bind_ret by reflexivity.
  erewrite bind_ret by (unfold getitem; rewrite Hl; reflexivity).
  rewrite (proj2 (forallb_unique _ label) Hv). simpl negb. cbv iota.
  erewrite bind_ret by reflexivity.
  destruct (nrows data <? 10)%nat.
  - rewrite (bind_ret _ _ _ _ _ (print_eq _ _)), logged_logged.
    rewrite (bind_ret _ _ _ _ _ (print_eq _ _)), logged_logged. reflexivity.
  - erewrite bind_ret by reflexivity.
    rewrite (bind_ret _ _ _ _ _ (print_eq _ _)), logged_logged. reflexivity.
Qed.

Lemma load_data_returns_acceptable data :
  returns (load_data (inr data)) (fun d => d = data /\ acceptable data).
Proof.
  unfold load_data. eapply returns_bind; [apply returns_any|]. intros _ _.
  apply returns_try.
  - eapply returns_bind with (P := fun d => d = data);
      [now apply returns_ret|]. intros d ->.
    eapply returns_bind; [apply returns_any|]. intros _ _.
    eapply returns_bind with (P := fun _ => has_columns data = true).
    { fold (has_columns data). destruct (has_columns data);
        [now apply returns_ret | apply returns_raise]. }
    intros _ Hc.
    eapply returns_bind; [apply getitem_returns|]. intros label Hl.
    eapply returns_bind with
      (P := fun _ => forallb (fun l => cell_in l labels) (unique label) = true).
    { destruct (forallb _ (unique label));
        [now apply returns_ret | apply returns_raise]. }
    intros _ Hf.
    eapply returns_bind; [apply returns_any|]. intros _ _.
    eapply returns_bind; [apply returns_any|]. intros _ _.
    apply returns_ret. split; [reflexivity|]. split; [exact Hc|].
    exists label. split; [exact Hl|]. now apply forallb_unique.
  - intros e. eapply returns_bind; [apply returns_any|]. intros _ _.
    unfold exit. eapply returns_bind; [apply returns_any|]. intros _ _.
    apply returns_raise.
Qed.

(** X1: [load_data] returns the dataset exactly when it has the text and
    the label column and every label is one of the two.  It then prints
    the banner, the success line, the warning when there are fewer than
    10 rows, and the totals, and changes nothing else; a small dataset
    is not refused. *)
Theorem load_data_accepts_iff data w :
  (acceptable data ->
   exists label,
     column data "label" = Some label /\
     load_data (inr data) w = (Ret data, logged w (load_events data label))) /\
  (forall d w', load_data (inr data) w = (Ret d, w') ->
                d = data /\ acceptable data).
Proof.
  split; [apply load_data_accepts|].
  intros d w' E. exact (load_data_returns_acceptable data _ _ _ E).
Qed.

(** The witness of X1: the two-row dataset is accepted, with the warning. *)
Lemma load_data_accepts_iff_witness :
  acceptable Toy.emails /\
  load_data (inr Toy.emails) (Toy.world [] []) =
    (Ret Toy.emails,
     logged (Toy.world [] [])
       [Print Banner; Print DataLoaded; Print SmallDataWarning;
        Print (TotalEmails 2 1 1)]).
Proof.
  assert (Ha : acceptable Toy.emails).
  { split; [reflexivity|]. eexists. split; [reflexivity|].
    intros v [<- | [<- | []]]; reflexivity. }
  split; [exact Ha|].
  destruct (load_data_accepts_iff Toy.emails (Toy.world [] [])) as [H _].
  destruct (H Ha) as (label & Hl & Heq).
  injection Hl as <-. rewrite Heq. reflexivity.
Defined.

Lemma count_eq_cons v col s :
  count_eq (v :: col) s =
  (if cell_eqb v (CStr s) then 1 else 0) + count_eq col s.
Proof. unfold count_eq. simpl. now destruct (cell_eqb v (CStr s)). Qed.

Lemma count_eq_labels label :
  (forall v, In v label -> cell_in v labels = true) ->
  count_eq label "phishing" + count_eq label "legitimate" = List.length label.
Proof.
  induction label as [|v r IH]; intros Hv; [reflexivity|].
  rewrite !count_eq_cons. simpl List.length.
  rewrite <- IH by (intros u Hu; apply Hv; now right).
  specialize (Hv v (or_introl eq_refl)).
  destruct v as [s | z |]; simpl in Hv; try discriminate.
  apply mem_In in Hv. destruct Hv as [<- | [<- | []]]; simpl; lia.
Qed.

(** X2: once the labels are validated, the two counts that the totals
    line prints add up to the number of labels: every row is counted
    once, as phishing or as legitimate. *)
Theorem label_counts_add_up data label :
  validated data -> column data "label" = Some label ->
  count_eq label "phishing" + count_eq label "legitimate" = List.length label.
Proof.
  intros (label' & Hl' & Hv) Hl. rewrite Hl in Hl'. injection Hl' as <-.
  now apply count_eq_labels.
Qed.

(** The witness of X2. *)
Lemma label_counts_add_up_witness :
  count_eq [CStr "phishing"; CStr "legitimate"] "phishing" +
  count_eq [CStr "phishing"; CStr "legitimate"] "legitimate" = 2.
Proof.
  apply (label_counts_add_up Toy.emails).
  - eexists. split; [reflexivity|]. intros v [<- | [<- | []]]; reflexivity.
  - reflexivity.
Defined.

(** X3: when [pd.read_csv] raises, the script prints the error and
    exits: nothing is split or fitted, the store is not opened, and no
    traceback escapes. *)
Theorem unreadable_csv_exits sk e w :
  is_Exception e = true ->
  main sk (inl e) w =
    (Raise SystemExit, logged w [Print Banner; Print (ErrorLoading e); Exit]).
Proof.
  intros He. unfold main. apply bind_raise. unfold load_data.
  rewrite (bind_ret _ _ _ _ _ (print_eq _ _)).
  unfold try_except. erewrite bind_raise by reflexivity. rewrite He.
  rewrite (bind_ret _ _ _ _ _ (print_eq _ _)), logged_logged.
  unfold exit. rewrite (bind_ret _ _ _ _ _ (log_eq _ _)), logged_logged.
  reflexivity.
Qed.

(** The witness of X3: the file is missing. *)
Lemma unreadable_csv_exits_witness :
  main Toy.sk (inl (OtherError "No such file or directory: 'emails.csv'"))
       (Toy.world ["quit"] []) =
    (Raise SystemExit,
     logged (Toy.world ["quit"] [])
       [Print Banner;
        Print (ErrorLoading
                 (OtherError "No such file or directory: 'emails.csv'"));
        Exit]).
Proof. apply unreadable_csv_exits. reflexivity. Defined.

(** * Startup leaves the store and the input alone *)

Lemma quiet_refl w : quiet w w.
Proof. now repeat split. Qed.

Lemma quiet_trans w1 w2 w3 : quiet w1 w2 -> quiet w2 w3 -> quiet w1 w3.
Proof.
  intros (A1 & B1 & C1 & D1) (A2 & B2 & C2 & D2).
  repeat split; congruence.
Qed.

Lemma log_quiet e : preserves quiet (log e).
Proof. intros w. now repeat split. Qed.

Lemma getitem_quiet data name : preserves quiet (getitem data name).
Proof.
  intros w. unfold getitem. destruct (column data name); apply quiet_refl.
Qed.

Lemma call_quiet {A} ev (r : exn + A) : preserves quiet (call ev r).
Proof. intros w. unfold call, bind, log. destruct r; now repeat split. Qed.

Ltac quiet_then := apply preserves_bind with (P := fun _ => True);
  [exact quiet_trans | | apply returns_any | intros ? _].

Lemma load_data_quiet csv : preserves quiet (load_data csv).
Proof.
  unfold load_data. quiet_then; [apply log_quiet|].
  apply preserves_try; [exact quiet_trans | |].
  - quiet_then; [intros w; destruct csv; apply quiet_refl|].
    quiet_then; [apply log_quiet|].
    quiet_then; [intros w; destruct (negb _); apply quiet_refl|].
    quiet_then; [apply getitem_quiet|].
    quiet_then; [intros w; destruct (negb _); apply quiet_refl|].
    quiet_then.
    { destruct (_ <? _)%nat; [apply log_quiet | intros w; apply quiet_refl]. }
    quiet_then; [apply log_quiet | intros w; apply quiet_refl].
  - intros e. quiet_then; [apply log_quiet|].
    unfold exit. quiet_then; [apply log_quiet | intros w; apply quiet_refl].
Qed.

Lemma train_quiet sk data : preserves quiet (train sk data).
Proof.
  unfold train. quiet_then; [apply getitem_quiet|].
  quiet_then; [apply getitem_quiet|].
  quiet_then; [apply call_quiet|].
  destruct a1 as [[[X_train X_test] y_train] y_test].
  quiet_then; [apply call_quiet|]. cbv zeta.
  quiet_then; [apply call_quiet | intros w; apply quiet_refl].
Qed.

(** X4: an exception of [train_test_split] or of one of the two fits is
    not caught: the script ends with it.  By then no line has been read,
    no row written and the store has not been opened. *)
Theorem training_failure_escapes sk csv w data w1 e w2 :
  load_data csv w = (Ret data, w1) ->
  train sk data w1 = (Raise e, w2) ->
  main sk csv w = (Raise e, w2) /\
  quiet w w2 /\
  exists evs, trace w2 = (trace w ++ evs)%list /\
              acquired evs = 0 /\ released evs = 0.
Proof.
  intros H1 H2.
  assert (Hm : (data <- load_data csv ;; train sk data)%py w = (Raise e, w2)).
  { now rewrite (bind_ret _ _ _ _ _ H1). }
  split; [|split].
  - unfold main. rewrite (bind_ret _ _ _ _ _ H1). now apply bind_raise.
  - apply quiet_trans with (w2 := w1).
    + pose proof (load_data_quiet csv w) as Q. now rewrite H1 in Q.
    + pose proof (train_quiet sk data w1) as Q. now rewrite H2 in Q.
  - destruct (startup_run sk csv w) as ((evs & Ht & Hev) & _ & _).
    rewrite Hm in Ht. exists evs. split; [exact Ht|].
    now apply not_connection_counts.
Qed.

(** The witness of X4: the stratified split refuses the dataset. *)
Lemma training_failure_escapes_witness :
  main Cases.failing_split (inr Toy.emails) (Toy.world ["quit"] []) =
    (Raise (ValueError "The least populated class in y has only 1 member"),
     logged (Toy.world ["quit"] [])
       [Print Banner; Print DataLoaded; Print SmallDataWarning;
        Print (TotalEmails 2 1 1); TrainTestSplit]).
Proof.
  eapply (training_failure_escapes Cases.failing_split (inr Toy.emails)
            (Toy.world ["quit"] []) Toy.emails); reflexivity.
Defined.

(** * How the session ends *)

Lemma loop_exit tm fuel w :
  List.length (stdin w) < fuel ->
  match loop tm fuel w with
  | (Ret _, w') =>
      exists used line, stdin w = (used ++ line :: stdin w')%list /\
                        Str.lower (Str.strip line) = "quit"
  | (Raise e, w') => e = EOFError /\ stdin w' = []
  | (OutOfFuel, _) => False
  end.
Proof.
  revert w. induction fuel as [|k IH]; intros w Hf; [lia|].
  simpl. destruct (stdin w) as [|line rest] eqn:Hw.
  { rewrite (bind_raise _ _ _ _ _ (loop_body_eof _ _ Hw)).
    split; [reflexivity | exact Hw]. }
  unfold bind. rewrite (loop_body_line _ _ _ _ Hw).
  pose proof (dispatch_preserves tm (fun _ => True) (fun _ => I) line
                (after_line w [Prompt EnterEmailText])) as Hp.
  pose proof (dispatch_break tm line (after_line w [Prompt EnterEmailText]))
    as Hb.
  destruct (dispatch_total tm line (after_line w [Prompt EnterEmailText]))
    as (c & w1 & E).
  rewrite E in Hp |- *. specialize (Hb _ _ E).
  destruct Hp as [_ _ _ [used Hu]]. cbn [snd after_line stdin] in Hu.
  rewrite Hw in Hu. cbn [tl] in Hu.
  destruct c.
  - specialize (Hb eq_refl). rewrite (dispatch_quit _ _ _ Hb) in E.
    injection E as <-. exists [], line. split; [|exact Hb].
    cbn [after_line stdin]. now rewrite Hw.
  - assert (Hlen : List.length (stdin w1) < k).
    { simpl in Hf. rewrite Hu, length_app in Hf. lia. }
    specialize (IH w1 Hlen).
    destruct (loop tm k w1) as [[[] | e |] w2]; try exact IH.
    destruct IH as (used' & line' & Hs & Hq).
    exists (line :: used ++ used')%list, line'. split; [|exact Hq].
    rewrite Hu, Hs. simpl. now rewrite <- app_assoc.
Qed.

(** X5: the session returns normally only right after a line that is
    [quit] once stripped and put in lower case: every line before it was
    read, the lines behind it are left unread.  And on a finite input
    the loop comes to an end: each turn reads a line or raises. *)
Theorem session_exits tm w :
  match interactive tm w with
  | (Ret _, w') =>
      exists used line, stdin w = (used ++ line :: stdin w')%list /\
                        Str.lower (Str.strip line) = "quit"
  | (Raise _, _) => True
  | (OutOfFuel, _) => False
  end.
Proof.
  rewrite interactive_eq.
  pose proof (loop_exit tm (S (List.length (stdin w)))
                (logged w [Print InteractiveMode; Print Usage])) as H.
  destruct (loop tm _ _) as [[[] | e |] w']; [| exact I |];
    apply H; cbn [logged stdin]; lia.
Qed.

(** * What a turn writes *)

Lemma main_preserves_any sk csv :
  preserves (extends (fun _ => True) (stored_with (fun _ => True))
                     stored_feedback)
            (main sk csv).
Proof.
  unfold main.
  apply preserves_bind with (P := fun _ => True);
    [apply extends_trans | now apply load_data_preserves
     | apply returns_any |].
  intros data _.
  apply preserves_bind with (P := fun _ => True);
    [apply extends_trans | now apply train_preserves | apply returns_any |].
  intros [[[tm X_test] X_test_vec] y_test] _.
  apply preserves_bind with (P := fun _ => True);
    [apply extends_trans | now apply log_preserves | apply returns_any |].
  intros _ _.
  apply preserves_bind with (P := fun _ => True);
    [apply extends_trans | now apply evaluate_preserves | apply returns_any |].
  intros _ _.
  apply preserves_bind with (P := fun _ => True);
    [apply extends_trans | | apply returns_any |].
  - intros w. eapply extends_weaken; [|now apply interactive_preserves].
    intros e _. exact I.
  - intros _ _. unfold cleanup.
    apply preserves_bind with (P := fun _ => True);
      [apply extends_trans | now apply log_preserves | apply returns_any |].
    intros _ _.
    apply preserves_bind with (P := fun _ => True);
      [apply extends_trans | now apply print_preserves | apply returns_any |].
    intros _ _. now apply print_preserves.
Qed.

(** X6: whatever the dataset, the classifier and the input, a run of the
    script only appends to the two tables: the rows that were there stay,
    in order.  Every detection it adds holds a stripped text of 10 to
    1000 characters and every feedback row it adds holds one of the two
    labels; none of this depends on scikit-learn. *)
Theorem tables_only_grow sk csv w :
  exists ds fs,
    detections (snd (main sk csv w)) = (detections w ++ ds)%list /\
    false_positives (snd (main sk csv w)) = (false_positives w ++ fs)%list /\
    Forall (fun d => Str.strip (email_text d) = email_text d /\
                     10 <= Str.len (email_text d) <= 1000) ds /\
    Forall (fun f => In (actual_label f) labels) fs.
Proof.
  destruct (main_preserves_any sk csv w)
    as [_ (ds & Hd & Hds) (fs & Hf & Hfs) _].
  exists ds, fs. split; [exact Hd|]. split; [exact Hf|]. split.
  - eapply Forall_impl; [|exact Hds]. intros d (H1 & H2 & _). now split.
  - exact Hfs.
Qed.

Lemma analyze_email_any_world tm email w r w' :
  analyze_email tm email w = (r, w') ->
  forall w0, analyze_email tm email w0 = (r, w0).
Proof.
  unfold analyze_email. intros E w0.
  destruct (Str.is_empty _); [now injection E as <- _|].
  destruct (_ <? _)%nat; [now injection E as <- _|].
  destruct (Num.max _); now injection E as <- _.
Qed.

Ltac rows :=
  cbn [snd logged after_line trace detections false_positives];
  first [reflexivity | symmetry; apply app_nil_r | now left | idtac].

Lemma save_to_db_rows email label conf w :
  exists w1 evs ds,
    save_to_db email label conf w = (Ret tt, w1) /\
    trace w1 = (trace w ++ evs)%list /\
    detections w1 = (detections w ++ ds)%list /\
    false_positives w1 = false_positives w /\
    (ds = [] \/ ds = [mkDetection email label conf]).
Proof.
  rewrite save_to_db_eq. destruct (_ || _).
  - eexists _, _, _. repeat split; rows.
  - destruct (write_faults w) as [|[|] rest];
      eexists _, _, _; repeat split; rows; now right.
Qed.

Lemma ask_feedback_rows email w :
  exists evs fs,
    trace (snd (ask_feedback email w)) = (trace w ++ evs)%list /\
    detections (snd (ask_feedback email w)) = detections w /\
    false_positives (snd (ask_feedback email w)) =
      (false_positives w ++ fs)%list /\
    (fs = [] \/
     exists label, fs = [mkFalsePositive email label] /\ In label labels).
Proof.
  rewrite ask_feedback_eq.
  destruct (stdin w) as [|answer rest].
  { eexists _, _. repeat split; rows. }
  destruct (String.eqb _ _).
  2:{ eexists _, _. repeat split; rows. }
  destruct rest as [|answer' rest'].
  { eexists _, _. repeat split; rows. }
  cbv zeta. destruct (Str.mem _ labels) eqn:Hm.
  2:{ eexists _, _. repeat split; rows. }
  apply mem_In in Hm.
  destruct (write_faults w) as [|[|] faults];
    eexists _, _; repeat split; rows; right; eauto.
Qed.

Lemma predict_and_record_ok tm email label conf w :
  analyzes_to tm email label conf ->
  predict_and_record tm email w =
    match ask_feedback email
            (snd (save_to_db email label conf
                    (logged w [Analyze email; Print (Result label conf)]))) with
    | (Ret _, w2) => (Ret tt, w2)
    | (Raise e, w2) => (Ret tt, logged w2 [Print (Error e)])
    | (OutOfFuel, w2) => (OutOfFuel, w2)
    end.
Proof.
  intros Ha. unfold predict_and_record, try_except.
  rewrite (bind_ret _ _ _ _ _ (log_eq _ _)).
  rewrite (bind_ret _ _ _ _ _ (Ha _)). cbv beta iota.
  rewrite (bind_ret _ _ _ _ _ (print_eq _ _)), logged_logged.
  destruct (save_to_db_rows email label conf
              (logged w ([Analyze email] ++ [Print (Result label conf)])))
    as (w1 & _ & _ & Es & _).
  rewrite (bind_ret _ _ _ _ _ Es).
  change ([Analyze email] ++ [Print (Result label conf)])%list
    with [Analyze email; Print (Result label conf)] in Es.
  rewrite Es. cbn [snd].
  pose proof (raises_only_ask_feedback email w1) as Hr.
  destruct (ask_feedback email w1) as [[[] | e |] w2]; cbn [fst] in Hr.
  - reflexivity.
  - rewrite Hr. now rewrite print_eq.
  - contradiction.
Qed.

Lemma predict_and_record_rows tm email w :
  exists w' evs ds fs,
    predict_and_record tm email w = (Ret tt, w') /\
    trace w' = (trace w ++ Analyze email :: evs)%list /\
    detections w' = (detections w ++ ds)%list /\
    false_positives w' = (false_positives w ++ fs)%list /\
    turn_rows email (Analyze email :: evs) ds fs.
Proof.
  pose proof (raises_only_analyze_email tm email (logged w [Analyze email]))
    as Hr.
  destruct (analyze_email tm email (logged w [Analyze email]))
    as [[[label conf] | e |] w1] eqn:Ea; cbn [fst] in Hr.
  - assert (Ha : analyzes_to tm email label conf).
    { intros w0. exact (analyze_email_any_world _ _ _ _ _ Ea w0). }
    rewrite (predict_and_record_ok _ _ _ _ _ Ha).
    destruct (save_to_db_rows email label conf
                (logged w [Analyze email; Print (Result label conf)]))
      as (w2 & evs1 & ds & Es & Ht1 & Hd1 & Hf1 & Hds).
    rewrite Es. cbn [snd].
    destruct (ask_feedback_rows email w2) as (evs2 & fs & Ht2 & Hd2 & Hf2 & Hfs).
    cbn [logged trace detections false_positives] in Ht1, Hd1, Hf1.
    assert (Hrows : forall evs,
              turn_rows email
                (Analyze email :: Print (Result label conf) :: evs) ds fs).
    { intros evs. split.
      - destruct Hds as [-> | ->]; [now left|]. right.
        exists label, conf. split; [reflexivity|].
        split; [now left | right; now left].
      - destruct Hfs as [-> | (l & -> & Hl)]; [now left|]. right.
        exists l. repeat split; [exact Hl | now left]. }
    pose proof (raises_only_ask_feedback email w2) as Hq.
    destruct (ask_feedback email w2) as [[[] | e |] w3]; cbn [fst snd] in *.
    + exists w3, (Print (Result label conf) :: evs1 ++ evs2)%list, ds, fs.
      split; [reflexivity|]. rewrite Ht2, Ht1, Hd2, Hd1, Hf2, Hf1.
      rewrite <- !app_assoc. repeat split; apply Hrows.
    + exists (logged w3 [Print (Error e)]),
        (Print (Result label conf) :: evs1 ++ evs2 ++ [Print (Error e)])%list,
        ds, fs.
      split; [reflexivity|]. cbn [logged trace detections false_positives].
      rewrite Ht2, Ht1, Hd2, Hd1, Hf2, Hf1.
      rewrite <- !app_assoc. repeat split; apply Hrows.
    + contradiction.
  - destruct Hr as [msg ->].
    pose proof (analyze_email_world tm email (logged w [Analyze email])) as Hw.
    rewrite Ea in Hw. cbn [snd] in Hw. subst w1.
    rewrite (predict_and_record_rejected _ _ _ _ Ea eq_refl).
    exists (logged w [Analyze email; Print (Error (ValueError msg))]),
      [Print (Error (ValueError msg))], [], [].
    split; [reflexivity|]. cbn [logged trace detections false_positives].
    rewrite !app_nil_r. repeat split; now left.
  - contradiction.
Qed.

Lemma loop_body_rows tm w line :
  next_line w line ->
  exists c w' evs ds fs,
    loop_body tm w = (Ret c, w') /\
    trace w' = (trace w ++ Prompt EnterEmailText :: evs)%list /\
    detections w' = (detections w ++ ds)%list /\
    false_positives w' = (false_positives w ++ fs)%list /\
    turn_rows (Str.strip line) evs ds fs.
Proof.
  intros [rest Hw]. rewrite (loop_body_line _ _ _ _ Hw).
  assert (Hnone : forall evs, turn_rows (Str.strip line) evs [] []).
  { intros evs. split; now left. }
  destruct (string_dec (Str.lower (Str.strip line)) "quit") as [Hq | Hq].
  { rewrite (dispatch_quit _ _ _ Hq).
    eexists _, _, [], [], []. split; [reflexivity|]. cbn.
    rewrite !app_nil_r. repeat split; apply Hnone. }
  destruct (string_dec (Str.lower (Str.strip line)) "report") as [Hr | Hr].
  { rewrite (dispatch_report _ _ _ Hr), logged_after_line.
    eexists _, _, _, [], []. split; [reflexivity|]. cbn.
    rewrite !app_nil_r. repeat split; apply Hnone. }
  destruct (string_dec (Str.strip line) EmptyString) as [He | He].
  { rewrite (dispatch_empty _ _ _ He), logged_after_line.
    eexists _, _, _, [], []. split; [reflexivity|]. cbn.
    rewrite !app_nil_r. repeat split; apply Hnone. }
  destruct (lt_dec (Str.len (Str.strip line)) 10) as [Hs | Hs].
  { rewrite (dispatch_short _ _ _ Hq Hr He Hs), logged_after_line.
    eexists _, _, _, [], []. split; [reflexivity|]. cbn.
    rewrite !app_nil_r. repeat split; apply Hnone. }
  apply String.eqb_neq in Hq, Hr.
  rewrite (dispatch_long _ _ _ (proj1 (Nat.nlt_ge _ _) Hs) Hq Hr).
  destruct (predict_and_record_rows tm (Str.strip line)
              (after_line w [Prompt EnterEmailText]))
    as (w' & evs & ds & fs & E & Ht & Hd & Hf & Hrows).
  rewrite (bind_ret _ _ _ _ _ E).
  exists Continue, w', (Analyze (Str.strip line) :: evs), ds, fs.
  split; [reflexivity|]. rewrite Ht, Hd, Hf. cbn [after_line trace detections false_positives].
  rewrite <- app_assoc. repeat split; apply Hrows.
Qed.

(** X7: whatever a turn that reads a line does, it adds at most one row
    to each table, and both carry the line of that turn, stripped.  A
    detection row holds the label and the confidence that were printed;
    a feedback row holds one of the two labels and is written only in a
    turn that called [analyze_email]. *)
Theorem turn_writes tm w line :
  next_line w line ->
  exists evs ds fs,
    trace (snd (loop_body tm w)) =
      (trace w ++ Prompt EnterEmailText :: evs)%list /\
    detections (snd (loop_body tm w)) = (detections w ++ ds)%list /\
    false_positives (snd (loop_body tm w)) = (false_positives w ++ fs)%list /\
    turn_rows (Str.strip line) evs ds fs.
Proof.
  intros Hn.
  destruct (loop_body_rows tm w line Hn)
    as (c & w' & evs & ds & fs & E & H).
  rewrite E. exists evs, ds, fs. exact H.
Qed.

(** The witness of X7: a turn with a prediction and a correction. *)
Lemma turn_writes_witness :
  next_line (Toy.world [Cases.typed; "n"; "legitimate"] []) Cases.typed /\
  exists evs ds fs,
    trace (snd (loop_body Toy.tm
                  (Toy.world [Cases.typed; "n"; "legitimate"] []))) =
      (Prompt EnterEmailText :: evs)%list /\
    detections (snd (loop_body Toy.tm
                       (Toy.world [Cases.typed; "n"; "legitimate"] []))) = ds /\
    false_positives (snd (loop_body Toy.tm
                       (Toy.world [Cases.typed; "n"; "legitimate"] []))) = fs /\
    turn_rows Cases.message evs ds fs.
Proof.
  assert (Hn : next_line (Toy.world [Cases.typed; "n"; "legitimate"] [])
                         Cases.typed) by (eexists; reflexivity).
  split; [exact Hn|].
  destruct (turn_writes Toy.tm _ _ Hn) as (evs & ds & fs & H).
  exists evs, ds, fs. exact H.
Defined.

(** X8: a line of at least 10 characters once stripped is always passed
    to [analyze_email], with the stripped text: it cannot be taken for
    [quit] or [report], and the call comes right after the prompt. *)
Theorem long_line_analyzed tm w line :
  next_line w line -> 10 <= Str.len (Str.strip line) ->
  exists w' evs,
    loop_body tm w = (Ret Continue, w') /\
    trace w' =
      (trace w ++ Prompt EnterEmailText :: Analyze (Str.strip line) :: evs)%list.
Proof.
  intros [rest Hw] Hlen. rewrite (loop_body_line _ _ _ _ Hw).
  rewrite dispatch_long;
    [| exact Hlen | apply eqb_len_neq; rewrite lower_len; simpl; lia
     | apply eqb_len_neq; rewrite lower_len; simpl; lia].
  destruct (predict_and_record_rows tm (Str.strip line)
              (after_line w [Prompt EnterEmailText]))
    as (w' & evs & ds & fs & E & Ht & _).
  rewrite (bind_ret _ _ _ _ _ E). exists w', evs.
  split; [reflexivity|]. rewrite Ht. cbn [after_line trace].
  now rewrite <- app_assoc.
Qed.

(** The witness of X8. *)
Lemma long_line_analyzed_witness :
  exists w' evs,
    loop_body Toy.tm (Toy.world [Cases.typed; "y"] []) = (Ret Continue, w') /\
    trace w' = (Prompt EnterEmailText :: Analyze Cases.message :: evs)%list.
Proof.
  apply (long_line_analyzed Toy.tm (Toy.world [Cases.typed; "y"] []) Cases.typed).
  - eexists. reflexivity.
  - vm_compute. lia.
Defined.

Lemma save_to_db_accepted email label conf w :
  email <> EmptyString -> label <> EmptyString -> write_accepted w ->
  save_to_db email label conf w =
    (Ret tt,
     mkWorld (stdin w) (tl (write_faults w))
             (detections w ++ [mkDetection email label conf])
             (false_positives w) (trace w)).
Proof.
  intros He Hl Hacc. rewrite save_to_db_eq.
  apply is_empty_false in He, Hl. rewrite He, Hl. cbn [orb].
  unfold write_accepted in Hacc.
  destruct (write_faults w) as [|[|] faults]; cbn in *;
    [reflexivity | discriminate | reflexivity].
Qed.

Lemma recorded_turn tm w line rest label conf :
  stdin w = line :: rest ->
  10 <= Str.len (Str.strip line) ->
  analyzes_to tm (Str.strip line) label conf ->
  label <> EmptyString ->
  write_accepted w ->
  loop_body tm w =
    match ask_feedback (Str.strip line)
            (recorded w rest (Str.strip line) label conf) with
    | (Ret _, w2) => (Ret Continue, w2)
    | (Raise e, w2) => (Ret Continue, logged w2 [Print (Error e)])
    | (OutOfFuel, w2) => (OutOfFuel, w2)
    end.
Proof.
  intros Hw Hlen Ha Hl Hacc. rewrite (loop_body_line _ _ _ _ Hw).
  rewrite dispatch_long;
    [| exact Hlen | apply eqb_len_neq; rewrite lower_len; simpl; lia
     | apply eqb_len_neq; rewrite lower_len; simpl; lia].
  unfold bind. rewrite (predict_and_record_ok _ _ _ _ _ Ha).
  rewrite save_to_db_accepted;
    [| intros E; rewrite E in Hlen; simpl in Hlen; lia | exact Hl | exact Hacc].
  replace (snd (Ret tt, _)) with (recorded w rest (Str.strip line) label conf).
  2:{ unfold recorded.
      cbn [snd logged after_line stdin write_faults detections
           false_positives trace].
      rewrite Hw. cbn [tl]. now rewrite <- app_assoc. }
  destruct (ask_feedback _ _) as [[[] | e |] w2]; reflexivity.
Qed.

(** X9: when the input ends at the feedback question, the [EOFError] is
    caught by the turn: the detection that was just stored stays, the
    error is printed and the turn returns to the loop.  It is the next
    prompt that ends the script with [EOFError]. *)
Theorem end_of_input_at_feedback tm w line label conf :
  stdin w = [line] ->
  10 <= Str.len (Str.strip line) ->
  analyzes_to tm (Str.strip line) label conf ->
  label <> EmptyString ->
  write_accepted w ->
  let w' := logged (recorded w [] (Str.strip line) label conf)
                   [Prompt WasThisCorrect; Print (Error EOFError)] in
  loop_body tm w = (Ret Continue, w') /\
  loop_body tm w' = (Raise EOFError, logged w' [Prompt EnterEmailText]).
Proof.
  intros Hw Hlen Ha Hl Hacc w'. split.
  - rewrite (recorded_turn _ _ _ _ _ _ Hw Hlen Ha Hl Hacc).
    rewrite ask_feedback_eq. cbn [recorded stdin]. subst w'.
    now rewrite logged_logged.
  - now apply loop_body_eof.
Qed.

(** The witness of X9: the message is the last line of the input. *)
Lemma end_of_input_at_feedback_witness :
  detections (snd (loop_body Toy.tm (Toy.world [Cases.typed] []))) =
    [mkDetection Cases.message "phishing" (Num.round2 ((7 # 10) * 100)%Q)] /\
  fst (loop_body Toy.tm (Toy.world [Cases.typed] [])) = Ret Continue.
Proof.
  destruct (end_of_input_at_feedback Toy.tm (Toy.world [Cases.typed] [])
              Cases.typed "phishing" (Num.round2 ((7 # 10) * 100)%Q))
    as [H _].
  - reflexivity.
  - vm_compute. lia.
  - intros w. reflexivity.
  - discriminate.
  - reflexivity.
  - rewrite H. split; reflexivity.
Defined.

(** X10: when the INSERT of the correction fails, the error is caught
    and printed, the feedback table is left as it was, the detection
    stored earlier in the turn stays, and the turn returns to the loop
    with both answers read. *)
Theorem failed_feedback_write tm w line answer answer' rest faults label conf :
  stdin w = line :: answer :: answer' :: rest ->
  write_faults w = false :: true :: faults ->
  10 <= Str.len (Str.strip line) ->
  analyzes_to tm (Str.strip line) label conf ->
  label <> EmptyString ->
  Str.lower answer = "n" ->
  In (Str.lower (Str.strip answer')) labels ->
  loop_body tm w =
    (Ret Continue,
     mkWorld rest faults
       (detections w ++ [mkDetection (Str.strip line) label conf])
       (false_positives w)
       (trace w ++ [Prompt EnterEmailText; Analyze (Str.strip line);
                    Print (Result label conf); Prompt WasThisCorrect;
                    Prompt WhatShouldItBe; Print (Error sqlite3_Error)])).
Proof.
  intros Hw Hf Hlen Ha Hl Hn Hin.
  assert (Hacc : write_accepted w) by (unfold write_accepted; now rewrite Hf).
  rewrite (recorded_turn _ _ _ _ _ _ Hw Hlen Ha Hl Hacc).
  rewrite ask_feedback_eq. cbn [recorded stdin write_faults].
  apply String.eqb_eq in Hn. rewrite Hn. cbv zeta.
  apply mem_In in Hin. rewrite Hin, Hf. cbn [tl].
  unfold logged, recorded.
  cbn [stdin write_faults detections false_positives trace].
  now rewrite <- !app_assoc.
Qed.

(** The witness of X10: the second write of the turn fails. *)
Lemma failed_feedback_write_witness :
  loop_body Toy.tm (Toy.world [Cases.typed; "N"; " Legitimate "; "quit"]
                              [false; true]) =
    (Ret Continue,
     mkWorld ["quit"] []
       [mkDetection Cases.message "phishing" (Num.round2 ((7 # 10) * 100)%Q)]
       []
       [Prompt EnterEmailText; Analyze Cases.message;
        Print (Result "phishing" (Num.round2 ((7 # 10) * 100)%Q));
        Prompt WasThisCorrect; Prompt WhatShouldItBe;
        Print (Error sqlite3_Error)]).
Proof.
  apply (failed_feedback_write Toy.tm
           (Toy.world [Cases.typed; "N"; " Legitimate "; "quit"] [false; true])
           Cases.typed "N" " Legitimate " ["quit"] []).
  - reflexivity.
  - reflexivity.
  - vm_compute. lia.
  - intros w. reflexivity.
  - discriminate.
  - reflexivity.
  - vm_compute. auto.
Defined.

(** X11: a whole turn with a correction.  For a line of at least 10
    characters that [analyze_email] accepts, with both writes accepted,
    an answer of [n] and one of the two labels: the turn stores exactly
    one detection, with the label and confidence it printed, and exactly
    one feedback row, with the same text and the label given, confirms
    it, and returns to the loop with the three lines read. *)
Theorem corrected_turn tm w line answer answer' rest label conf :
  stdin w = line :: answer :: answer' :: rest ->
  write_accepted w ->
  hd false (tl (write_faults w)) = false ->
  10 <= Str.len (Str.strip line) ->
  analyzes_to tm (Str.strip line) label conf ->
  label <> EmptyString ->
  Str.lower answer = "n" ->
  In (Str.lower (Str.strip answer')) labels ->
  loop_body tm w =
    (Ret Continue,
     mkWorld rest (tl (tl (write_faults w)))
       (detections w ++ [mkDetection (Str.strip line) label conf])
       (false_positives w ++
          [mkFalsePositive (Str.strip line) (Str.lower (Str.strip answer'))])
       (trace w ++ [Prompt EnterEmailText; Analyze (Str.strip line);
                    Print (Result label conf); Prompt WasThisCorrect;
                    Prompt WhatShouldItBe; Print FeedbackSaved])).
Proof.
  intros Hw Hacc Hacc' Hlen Ha Hl Hn Hin.
  rewrite (recorded_turn _ _ _ _ _ _ Hw Hlen Ha Hl Hacc).
  rewrite ask_feedback_eq. cbn [recorded stdin write_faults].
  apply String.eqb_eq in Hn. rewrite Hn. cbv zeta.
  apply mem_In in Hin. rewrite Hin.
  unfold recorded. cbn [detections false_positives trace].
  destruct (tl (write_faults w)) as [|[|] faults]; cbn [hd tl] in Hacc' |- *;
    [ | discriminate | ]; now rewrite <- !app_assoc.
Qed.

(** The witness of X11. *)
Lemma corrected_turn_witness :
  loop_body Toy.tm (Toy.world [Cases.typed; "N"; " Legitimate "; "quit"] []) =
    (Ret Continue,
     mkWorld ["quit"] []
       [mkDetection Cases.message "phishing" (Num.round2 ((7 # 10) * 100)%Q)]
       [mkFalsePositive Cases.message "legitimate"]
       [Prompt EnterEmailText; Analyze Cases.message;
        Print (Result "phishing" (Num.round2 ((7 # 10) * 100)%Q));
        Prompt WasThisCorrect; Prompt WhatShouldItBe; Print FeedbackSaved]).
Proof.
  apply (corrected_turn Toy.tm
           (Toy.world [Cases.typed; "N"; " Legitimate "; "quit"] [])
           Cases.typed "N" " Legitimate " ["quit"]).
  - reflexivity.
  - reflexivity.
  - reflexivity.
  - vm_compute. lia.
  - intros w. reflexivity.
  - discriminate.
  - reflexivity.
  - vm_compute. auto.
Defined.

(** X12: any answer to the feedback question other than [n], in either
    case, ends the turn at once.  The detection stays, nothing is added
    to the feedback table, and only that one line is read after the
    message: an answer such as [no], or [n] followed by a blank, is not
    a negative answer, because the answer is put in lower case but not
    stripped. *)
Theorem other_answer_keeps_record tm w line answer rest label conf :
  stdin w = line :: answer :: rest ->
  write_accepted w ->
  10 <= Str.len (Str.strip line) ->
  analyzes_to tm (Str.strip line) label conf ->
  label <> EmptyString ->
  Str.lower answer <> "n" ->
  loop_body tm w =
    (Ret Continue,
     mkWorld rest (tl (write_faults w))
       (detections w ++ [mkDetection (Str.strip line) label conf])
       (false_positives w)
       (trace w ++ [Prompt EnterEmailText; Analyze (Str.strip line);
                    Print (Result label conf); Prompt WasThisCorrect])).
Proof.
  intros Hw Hacc Hlen Ha Hl Hn.
  rewrite (recorded_turn _ _ _ _ _ _ Hw Hlen Ha Hl Hacc).
  rewrite ask_feedback_eq. cbn [recorded stdin].
  apply String.eqb_neq in Hn. rewrite Hn.
  unfold after_line, recorded.
  cbn [stdin write_faults detections false_positives trace tl].
  now rewrite <- !app_assoc.
Qed.

(** The witness of X12: the answer is [n] followed by a blank. *)
Lemma other_answer_keeps_record_witness :
  loop_body Toy.tm (Toy.world [Cases.typed; "n "; "legitimate"] []) =
    (Ret Continue,
     mkWorld ["legitimate"] []
       [mkDetection Cases.message "phishing" (Num.round2 ((7 # 10) * 100)%Q)]
       []
       [Prompt EnterEmailText; Analyze Cases.message;
        Print (Result "phishing" (Num.round2 ((7 # 10) * 100)%Q));
        Prompt WasThisCorrect]).
Proof.
  apply (other_answer_keeps_record Toy.tm
           (Toy.world [Cases.typed; "n "; "legitimate"] [])
           Cases.typed "n " ["legitimate"]).
  - reflexivity.
  - reflexivity.
  - vm_compute. lia.
  - intros w. reflexivity.
  - discriminate.
  - vm_compute. discriminate.
Defined.

(** * Rows and events over the whole session *)

Lemma rows_logged_weaken pre evs post ds fs :
  rows_logged evs ds fs -> rows_logged (pre ++ evs ++ post) ds fs.
Proof.
  intros [Hd Hf]. split; (eapply Forall_impl; [|eassumption]); cbv beta.
  - intros d [H1 H2].
    split; apply in_or_app; right; apply in_or_app; now left.
  - intros f [H1 H2]. split; [|exact H2].
    apply in_or_app; right; apply in_or_app; now left.
Qed.

Lemma rows_logged_app evs1 ds1 fs1 evs2 ds2 fs2 :
  rows_logged evs1 ds1 fs1 -> rows_logged evs2 ds2 fs2 ->
  rows_logged (evs1 ++ evs2) (ds1 ++ ds2) (fs1 ++ fs2).
Proof.
  intros H1 H2.
  apply (rows_logged_weaken [] evs1 evs2) in H1.
  apply (rows_logged_weaken evs1 evs2 []) in H2.
  rewrite app_nil_r in H2. simpl in H1.
  destruct H1 as [D1 F1], H2 as [D2 F2].
  split; apply Forall_app; now split.
Qed.

Lemma turn_rows_logged email evs ds fs :
  turn_rows email evs ds fs -> rows_logged evs ds fs.
Proof.
  intros [Hd Hf]. split.
  - destruct Hd as [-> | (label & conf & -> & H1 & H2)]; [constructor|].
    constructor; [now split | constructor].
  - destruct Hf as [-> | (label & -> & H1 & H2)]; [constructor|].
    constructor; [now split | constructor].
Qed.

Lemma session_rows_refl w : session_rows w w.
Proof.
  exists [], [], []. rewrite !app_nil_r. repeat split; constructor.
Qed.

Lemma session_rows_trans w1 w2 w3 :
  session_rows w1 w2 -> session_rows w2 w3 -> session_rows w1 w3.
Proof.
  intros (e1 & d1 & f1 & Ht1 & Hd1 & Hf1 & H1)
         (e2 & d2 & f2 & Ht2 & Hd2 & Hf2 & H2).
  exists (e1 ++ e2)%list, (d1 ++ d2)%list, (f1 ++ f2)%list.
  rewrite Ht2, Ht1, Hd2, Hd1, Hf2, Hf1, !app_assoc.
  split; [reflexivity|]. split; [reflexivity|]. split; [reflexivity|].
  now apply rows_logged_app.
Qed.

Lemma session_rows_logged w evs : session_rows w (logged w evs).
Proof.
  exists evs, [], []. cbn. rewrite !app_nil_r. repeat split; constructor.
Qed.

Lemma loop_body_session_rows tm w : session_rows w (snd (loop_body tm w)).
Proof.
  destruct (stdin w) as [|line rest] eqn:Hw.
  - rewrite (loop_body_eof _ _ Hw). apply session_rows_logged.
  - destruct (loop_body_rows tm w line (ex_intro _ rest Hw))
      as (c & w' & evs & ds & fs & E & Ht & Hd & Hf & Hrows).
    rewrite E. exists (Prompt EnterEmailText :: evs), ds, fs.
    split; [exact Ht|]. split; [exact Hd|]. split; [exact Hf|].
    apply turn_rows_logged in Hrows.
    apply (rows_logged_weaken [Prompt EnterEmailText] evs []) in Hrows.
    now rewrite app_nil_r in Hrows.
Qed.

Lemma loop_session_rows tm fuel w : session_rows w (snd (loop tm fuel w)).
Proof.
  revert w. induction fuel as [|k IH]; intros w; [apply session_rows_refl|].
  simpl. unfold bind.
  pose proof (loop_body_session_rows tm w) as Hb.
  destruct (loop_body tm w) as [[[] | e |] w1]; cbn [snd] in *; try exact Hb.
  eapply session_rows_trans; [exact Hb | apply IH].
Qed.

(** X13: over a whole session the tables and the output agree.  Every
    detection the session stores was analysed and was printed to the
    user with the label and the confidence that the row holds, and every
    feedback row is for a text that the session analysed.  The converse
    fails by design: a result is printed even when its write fails. *)
Theorem session_rows_are_logged tm w :
  exists evs ds fs,
    trace (snd (interactive tm w)) = (trace w ++ evs)%list /\
    detections (snd (interactive tm w)) = (detections w ++ ds)%list /\
    false_positives (snd (interactive tm w)) = (false_positives w ++ fs)%list /\
    rows_logged evs ds fs.
Proof.
  rewrite interactive_eq.
  apply session_rows_trans with (w2 := logged w [Print InteractiveMode; Print Usage]).
  - apply session_rows_logged.
  - apply loop_session_rows.
Qed.

(** * Nothing happens to a store that was not opened *)

Lemma startup_quiet sk csv :
  preserves quiet (data <- load_data csv ;; train sk data)%py.
Proof.
  apply preserves_bind with (P := fun _ => True);
    [exact quiet_trans | apply load_data_quiet | apply returns_any |].
  intros data _. apply train_quiet.
Qed.

Lemma acquired_cons_connect evs : acquired (Connect :: evs) = S (acquired evs).
Proof.
  change (Connect :: evs) with ([Connect] ++ evs)%list.
  now rewrite acquired_app.
Qed.

(** X14: a run that never opened the store has read no line, tried no
    write and added no row: loading and training only print.  So the
    script reads its first line, and writes its first row, with the
    store open. *)
Theorem unopened_store_untouched sk csv w evs :
  trace (snd (main sk csv w)) = (trace w ++ evs)%list ->
  acquired evs = 0 ->
  quiet w (snd (main sk csv w)).
Proof.
  intros Ht Ha.
  pose proof (startup_quiet sk csv w) as Hq.
  destruct (startup_run sk csv w) as ((ev1 & Ht1 & _) & _ & _).
  unfold main in *. rewrite <- bind_assoc in *.
  destruct ((data <- load_data csv ;; train sk data)%py w)
    as [[[[[tm X_test] X_test_vec] y_test] | e |] w1] eqn:E1;
    cbn [fst snd] in *.
  - exfalso.
    rewrite (bind_ret _ _ _ _ _ E1) in Ht. cbv beta iota in Ht.
    rewrite (bind_ret _ _ _ _ _ (connect_eq w1)) in Ht.
    rewrite <- bind_assoc in Ht.
    destruct (session_run tm X_test X_test_vec y_test (logged w1 [Connect]))
      as (ev2 & Ht2 & _ & _).
    destruct ((evaluate tm X_test X_test_vec y_test ;; interactive tm)%py
                (logged w1 [Connect])) as [[[] | e |] w2] eqn:E2;
      cbn [fst snd logged trace] in *.
    + rewrite (bind_ret _ _ _ _ _ E2), cleanup_eq in Ht.
      cbn [snd logged trace] in Ht. rewrite Ht2, Ht1 in Ht.
      rewrite <- !app_assoc in Ht. apply app_inv_head in Ht. subst evs.
      rewrite acquired_app in Ha. cbn [app] in Ha.
      rewrite acquired_cons_connect in Ha. lia.
    + rewrite (bind_raise _ _ _ _ _ E2) in Ht. cbn [snd] in Ht.
      rewrite Ht2, Ht1 in Ht.
      rewrite <- !app_assoc in Ht. apply app_inv_head in Ht. subst evs.
      rewrite acquired_app in Ha. cbn [app] in Ha.
      rewrite acquired_cons_connect in Ha. lia.
    + rewrite (bind_fuel _ _ _ _ E2) in Ht. cbn [snd] in Ht.
      rewrite Ht2, Ht1 in Ht.
      rewrite <- !app_assoc in Ht. apply app_inv_head in Ht. subst evs.
      rewrite acquired_app in Ha. cbn [app] in Ha.
      rewrite acquired_cons_connect in Ha. lia.
  - rewrite (bind_raise _ _ _ _ _ E1). exact Hq.
  - rewrite (bind_fuel _ _ _ _ E1). exact Hq.
Qed.

(** The witness of X14: the dataset has no label column. *)
Lemma unopened_store_untouched_witness :
  quiet (Toy.world ["quit"] [])
        (snd (main Toy.sk (inr Toy.no_label) (Toy.world ["quit"] []))).
Proof.
  apply (unopened_store_untouched Toy.sk (inr Toy.no_label)
           (Toy.world ["quit"] [])
           [Print Banner; Print DataLoaded;
            Print (ErrorLoading
                     (ValueError "CSV must contain 'text' and 'label' columns"));
            Exit]).
  - reflexivity.
  - reflexivity.
Defined.

(** * [save_to_db] on any text, with a commit that can fail *)

Lemma encode_of_string s : encode (of_string s) = Some s.
Proof. induction s as [|c r IH]; simpl; [reflexivity | now rewrite IH]. Qed.

Lemma is_nil_of_string s : is_nil (of_string s) = Str.is_empty s.
Proof. now destruct s. Qed.

Lemma commit_u_eq w :
  commit_u w =
  match write_faults w with
  | true :: rest =>
      (Raise sqlite3_Error,
       mkWorld (stdin w) rest (detections w) (false_positives w) (trace w))
  | _ =>
      (Ret tt,
       mkWorld (stdin w) (tl (write_faults w)) (detections w)
               (false_positives w) (trace w))
  end.
Proof.
  unfold commit_u, bind, next_fault.
  destruct (write_faults w) as [|[|] rest] eqn:Hf; simpl; rewrite ?Hf;
    try reflexivity.
  destruct w; simpl in *. now subst.
Qed.

(** What [save_to_db_u] does, case by case. *)
Lemma save_to_db_u_eq email prediction confidence w :
  save_to_db_u email prediction confidence w =
  if is_nil email || Str.is_empty prediction
  then (Ret tt, logged w [Print SkippingSave])
  else
    match encode email with
    | None => (Raise UnicodeEncodeError, w)
    | Some text =>
        if first_fault w then
          (Ret tt,
           mkWorld (stdin w) (tl (write_faults w)) (detections w)
                   (false_positives w)
                   (trace w ++ [Print (DatabaseError sqlite3_Error)]))
        else if second_fault w then
          (Ret tt,
           mkWorld (stdin w) (tl (tl (write_faults w)))
                   (detections w ++ [mkDetection text prediction confidence])
                   (false_positives w)
                   (trace w ++ [Print (DatabaseError sqlite3_Error)]))
        else
          (Ret tt,
           mkWorld (stdin w) (tl (tl (write_faults w)))
                   (detections w ++ [mkDetection text prediction confidence])
                   (false_positives w) (trace w))
    end.
Proof.
  unfold save_to_db_u. destruct (_ || _); [reflexivity|].
  unfold try_except, bind, execute_insert_detection_u.
  destruct (encode email) as [text|]; [|reflexivity].
  rewrite execute_insert_detection_eq. unfold first_fault, second_fault.
  destruct (write_faults w) as [|[|] rest]; cbn [hd tl].
  - rewrite commit_u_eq. reflexivity.
  - reflexivity.
  - rewrite commit_u_eq. cbn [write_faults stdin detections false_positives trace].
    destruct rest as [|[|] rest']; reflexivity.
Qed.

(** On a Latin-1 text and with a store that never fails, [save_to_db_u]
    is [save_to_db]. *)
Lemma save_to_db_u_latin1 email prediction confidence w :
  write_faults w = [] ->
  save_to_db_u (of_string email) prediction confidence w =
  save_to_db email prediction confidence w.
Proof.
  intros Hf. rewrite save_to_db_u_eq, save_to_db_eq.
  rewrite is_nil_of_string, encode_of_string.
  unfold first_fault, second_fault. rewrite Hf. reflexivity.
Qed.




(** * When the store is opened and closed *)

Lemma load_data_unreadable e : returns (load_data (inl e)) (fun _ => False).
Proof.
  unfold load_data. eapply returns_bind; [apply returns_any|]. intros _ _.
  apply returns_try.
  - eapply returns_bind with (P := fun _ => False); [apply returns_raise|].
    intros d [].
  - intros e'. eapply returns_bind; [apply returns_any|]. intros _ _.
    unfold exit. eapply returns_bind; [apply returns_any|]. intros _ _.
    apply returns_raise.
Qed.

(** A load that returns has printed the lines of a successful load and
    nothing else. *)
Lemma load_data_ret csv w d w1 :
  load_data csv w = (Ret d, w1) ->
  exists label,
    csv = inr d /\ column d "label" = Some label /\
    w1 = logged w (load_events d label).
Proof.
  intros E. destruct csv as [e | data].
  { destruct (load_data_unreadable e _ _ _ E). }
  destruct (load_data_returns_acceptable data _ _ _ E) as [-> Ha].
  destruct (load_data_accepts data w Ha) as (label & Hl & Heq).
  exists label. split; [reflexivity|]. split; [exact Hl|].
  rewrite Heq in E. now injection E as <-.
Qed.

(** A training that returns has made the three calls, in order. *)
Lemma train_ret sk data w r w1 :
  train sk data w = (Ret r, w1) ->
  w1 = logged w [TrainTestSplit; FitVectorizer; FitModel].
Proof.
  unfold train, getitem, call, bind, log, ret, raise, logged. intros E.
  destruct (column data "text") as [X|]; [|discriminate].
  destruct (column data "label") as [y|]; [|discriminate].
  cbn [stdin write_faults detections false_positives trace] in E.
  destruct (train_test_split sk X y)
    as [e | [[[X_train X_test] y_train] y_test]]; [discriminate|].
  cbn [stdin write_faults detections false_positives trace] in E.
  destruct (fit_vectorizer sk X_train) as [e | vec]; [discriminate|].
  cbn [stdin write_faults detections false_positives trace] in E.
  destruct (fit_model sk _ y_train) as [e | clf]; [discriminate|].
  injection E as _ <-. now rewrite <- !app_assoc.
Qed.

Lemma load_events_not_connection data label :
  Forall not_connection (load_events data label).
Proof.
  unfold load_events, not_connection.
  destruct (_ <? _)%nat; cbn [app]; repeat constructor; discriminate.
Qed.

(** The session, from the evaluation on: the evaluation is printed, then
    come the events of the turns; it is left normally only by [quit],
    and it does not run out of fuel. *)
Lemma session_trace tm X_test X_test_vec y_test w :
  let run := (evaluate tm X_test X_test_vec y_test ;; interactive tm)%py w in
  exists o session,
    trace (snd run) =
      (trace w ++ Print ModelEvaluation :: Print o :: session)%list /\
    Forall session_event session /\
    match fst run with
    | Ret _ => exists line, In line (stdin w) /\
                            Str.lower (Str.strip line) = "quit"
    | Raise e => True
    | OutOfFuel => False
    end.
Proof.
  cbv zeta.
  destruct (evaluate_eq tm X_test X_test_vec y_test w) as [o Ev].
  rewrite (bind_ret _ _ _ _ _ Ev).
  set (w1 := logged w [Print ModelEvaluation; Print o]).
  pose proof (interactive_preserves tm (fun _ => True) (fun _ => I) w1) as H.
  destruct H as [(evs & Ht & Hev) _ _ _].
  exists o, evs.
  split; [rewrite Ht; unfold w1, logged; simpl; now rewrite <- app_assoc|].
  split; [exact Hev|].
  rewrite interactive_eq.
  pose proof (loop_ends tm (S (List.length (stdin w1)))
                (logged w1 [Print InteractiveMode; Print Usage])) as He.
  destruct (loop tm _ _) as [[[] | e |] w2] eqn:El; cbn [fst snd] in *.
  - apply loop_quit in El. exact El.
  - exact I.
  - apply He. cbn [logged stdin]. lia.
Qed.

(** C1, as the script has it.  When the script returns normally, its
    events are, in this order: the lines of a successful load, the
    split and the two fits, the opening of the store, the evaluation,
    the events of the session, and then the closing followed by the two
    farewell lines.  So the store was opened exactly once, after loading
    and training and before the first prompt, and closed exactly once,
    after everything the session did; and a [quit] line was read.  No
    turn of the loop closes the store.  When the script ends by an
    exception the store is never closed: either it was not opened, or
    it was opened once, at the same place, and is left open. *)
Theorem connection_released_on_quit sk csv w :
  let run := main sk csv w in
  exists evs,
    trace (snd run) = (trace w ++ evs)%list /\
    match fst run with
    | Ret _ =>
        (exists data label o session,
           csv = inr data /\ column data "label" = Some label /\
           evs = (load_events data label ++
                  [TrainTestSplit; FitVectorizer; FitModel] ++
                  Connect :: Print ModelEvaluation :: Print o :: session ++
                  [Close; Print SessionEnded; Print AllSaved])%list /\
           Forall session_event session) /\
        acquired evs = 1 /\ released evs = 1 /\
        (exists line, In line (stdin w) /\ Str.lower (Str.strip line) = "quit")
    | Raise e =>
        released evs = 0 /\
        (acquired evs = 0 \/
         acquired evs = 1 /\
         exists data label o session,
           csv = inr data /\ column data "label" = Some label /\
           evs = (load_events data label ++
                  [TrainTestSplit; FitVectorizer; FitModel] ++
                  Connect :: Print ModelEvaluation :: Print o :: session)%list /\
           Forall session_event session)
    | OutOfFuel => False
    end.
Proof.
  cbv zeta.
  destruct (startup_run sk csv w) as ((ev1 & Ht1 & Hev1) & _ & Hf1).
  destruct (not_connection_counts _ Hev1) as [Ha1 Hr1].
  unfold main.
  destruct (load_data csv w) as [[data | e |] w0] eqn:E0.
  2:{ rewrite (bind_raise _ _ _ _ _ E0) in Ht1.
      rewrite (bind_raise _ _ _ _ _ E0). cbn [fst snd] in *.
      exists ev1. split; [exact Ht1|]. split; [exact Hr1 | now left]. }
  2:{ rewrite (bind_fuel _ _ _ _ E0) in Hf1. now contradiction Hf1. }
  destruct (load_data_ret _ _ _ _ E0) as (label & -> & Hl & ->).
  rewrite (bind_ret _ _ _ _ _ E0) in Ht1, Hf1.
  rewrite (bind_ret _ _ _ _ _ E0).
  destruct (train sk data (logged w (load_events data label)))
    as [[[[[tm X_test] X_test_vec] y_test] | e |] w1] eqn:E1.
  2:{ rewrite (bind_raise _ _ _ _ _ E1). cbn [fst snd] in *.
      exists ev1. split; [exact Ht1|]. split; [exact Hr1 | now left]. }
  2:{ cbn [fst] in Hf1. now contradiction Hf1. }
  apply train_ret in E1 as Hw1. rewrite logged_logged in Hw1.
  rewrite (bind_ret _ _ _ _ _ E1). cbv beta iota.
  rewrite (bind_ret _ _ _ _ _ (connect_eq w1)).
  rewrite <- bind_assoc.
  destruct (session_trace tm X_test X_test_vec y_test (logged w1 [Connect]))
    as (o & session & Ht2 & Hev2 & Hres).
  pose proof (Forall_impl _ session_event_not_connection Hev2) as Hnc.
  destruct (not_connection_counts _ Hnc) as [Ha2 Hr2].
  destruct (not_connection_counts _ (load_events_not_connection data label))
    as [Ha0 Hr0].
  assert (Hstdin : stdin w1 = stdin w) by (now subst w1).
  assert (Htr : trace (logged w1 [Connect]) =
                (trace w ++ load_events data label ++
                 [TrainTestSplit; FitVectorizer; FitModel] ++ [Connect])%list).
  { subst w1. cbn [logged trace]. now rewrite <- !app_assoc. }
  destruct ((evaluate tm X_test X_test_vec y_test ;; interactive tm)%py
              (logged w1 [Connect])) as [[[] | e |] w2] eqn:E2;
    cbn [fst snd] in *.
  - rewrite (bind_ret _ _ _ _ _ E2), cleanup_eq. cbn [fst snd logged trace].
    eexists. split.
    { rewrite Ht2, Htr. rewrite <- !app_assoc. cbn [app]. reflexivity. }
    split; [exists data, label, o, session; now repeat split|].
    split; [|split].
    + rewrite acquired_app, Ha0. cbn [app].
      change (TrainTestSplit :: FitVectorizer :: FitModel :: Connect ::
              Print ModelEvaluation :: Print o ::
              session ++ [Close; Print SessionEnded; Print AllSaved])%list
        with ([TrainTestSplit; FitVectorizer; FitModel; Connect;
               Print ModelEvaluation; Print o] ++ session ++
              [Close; Print SessionEnded; Print AllSaved])%list.
      rewrite !acquired_app, Ha2. reflexivity.
    + rewrite released_app, Hr0. cbn [app].
      change (TrainTestSplit :: FitVectorizer :: FitModel :: Connect ::
              Print ModelEvaluation :: Print o ::
              session ++ [Close; Print SessionEnded; Print AllSaved])%list
        with ([TrainTestSplit; FitVectorizer; FitModel; Connect;
               Print ModelEvaluation; Print o] ++ session ++
              [Close; Print SessionEnded; Print AllSaved])%list.
      rewrite !released_app, Hr2. reflexivity.
    + destruct Hres as (line & Hin & Hq). exists line. split; [|exact Hq].
      cbn [logged stdin] in Hin. now rewrite Hstdin in Hin.
  - rewrite (bind_raise _ _ _ _ _ E2). cbn [fst snd].
    eexists. split.
    { rewrite Ht2, Htr. rewrite <- !app_assoc. cbn [app]. reflexivity. }
    assert (Hcount :
      (load_events data label ++
       TrainTestSplit :: FitVectorizer :: FitModel ::
       Connect :: Print ModelEvaluation :: Print o :: session)%list =
      (load_events data label ++
       [TrainTestSplit; FitVectorizer; FitModel; Connect;
        Print ModelEvaluation; Print o] ++ session)%list) by reflexivity.
    split.
    + rewrite Hcount, !released_app, Hr0, Hr2. reflexivity.
    + right. split.
      * rewrite Hcount, !acquired_app, Ha0, Ha2. reflexivity.
      * exists data, label, o, session. now repeat split.
  - contradiction.
Qed.

(** C1 fails as stated: run on the sample dataset with an input that
    is empty from the start, the script loads, trains and opens the
    store, and the first prompt raises [EOFError], which nothing catches;
    the store has been opened once and is never closed. *)
Lemma connection_left_open_at_end_of_input :
  fst (main Sample.sk (inr Sample.emails) Sample.no_input) = Raise EOFError /\
  acquired (trace (snd (main Sample.sk (inr Sample.emails) Sample.no_input))) = 1 /\
  released (trace (snd (main Sample.sk (inr Sample.emails) Sample.no_input))) = 0.
Proof. split; [|split]; vm_compute; reflexivity. Qed.
